(** * postcss-linaria: the placeholder-aware stringifier

    A shallow embedding of [packages/postcss-linaria/src/stringify.ts].

    The file has three parts: the JavaScript string and number primitives
    the stringifier calls ([JS]), the stringifier itself
    ([LinariaStringifier]), and the properties proved about it. *)

From Stdlib Require Import ZArith Lia Bool List Ascii String.
From stdpp Require Import base option gmap strings.

Local Open Scope string_scope.
Local Open Scope Z_scope.

#[local] Arguments String.append !_ _ / : simpl nomatch.

(** ** JavaScript primitives

    A JavaScript string is a sequence of code units. We model code units
    in the range 0..255 as [ascii], so a [string] here is a JavaScript
    string all of whose code units are below 256. *)

Module JS.

(** [s.startsWith(p)], used to define the search primitives below. *)
Fixpoint starts_with (p s : string) : bool :=
  match p, s with
  | EmptyString, _ => true
  | String _ _, EmptyString => false
  | String a p', String b s' => Ascii.eqb a b && starts_with p' s'
  end.

(** [s.includes(p)]: [p] occurs in [s] at some position. *)
Fixpoint includes (s p : string) : bool :=
  starts_with p s ||
  match s with
  | EmptyString => false
  | String _ s' => includes s' p
  end.

(** [s.split(sep)] for a non-empty separator. The scan goes left to
    right; [skip] counts the code units of a separator that was matched
    and is still being stepped over. *)
Fixpoint split_scan (sep s : string) (skip : nat) : list string :=
  match s with
  | EmptyString => [EmptyString]
  | String c s' =>
      match skip with
      | S k => split_scan sep s' k
      | O =>
          if starts_with sep s
          then EmptyString :: split_scan sep s' (String.length sep - 1)
          else match split_scan sep s' 0 with
               | piece :: rest => String c piece :: rest
               | [] => [String c EmptyString]
               end
      end
  end.

Fixpoint code_units (s : string) : list string :=
  match s with
  | EmptyString => []
  | String c s' => String c EmptyString :: code_units s'
  end.

(** [s.split(sep)]: an empty separator splits into code units. *)
Definition split (s sep : string) : list string :=
  match sep with
  | EmptyString => code_units s
  | String _ _ => split_scan sep s 0
  end.

(** [xs.join(sep)]. *)
Fixpoint join (xs : list string) (sep : string) : string :=
  match xs with
  | [] => EmptyString
  | [x] => x
  | x :: rest => x ++ sep ++ join rest sep
  end.

(** [s.replace(/c/g, r)] for a pattern that is one literal code unit and
    a replacement [r] without [$]. *)
Fixpoint replace_all (c : ascii) (r s : string) : string :=
  match s with
  | EmptyString => EmptyString
  | String a s' =>
      (if Ascii.eqb a c then r else String a EmptyString) ++ replace_all c r s'
  end.

(** Each code unit replaced by a string, in one pass. *)
Fixpoint flat_map_units (f : ascii -> string) (s : string) : string :=
  match s with
  | EmptyString => EmptyString
  | String a s' => f a ++ flat_map_units f s'
  end.

(** The destructuring [const [, x] = xs]: the element at index 1, or
    [undefined] ([None]). *)
Definition second (xs : list string) : option string :=
  match xs with
  | _ :: x :: _ => Some x
  | _ => None
  end.

(** [occurs c s]: the code unit [c] is somewhere in [s]. *)
Fixpoint occurs (c : ascii) (s : string) : bool :=
  match s with
  | EmptyString => false
  | String a s' => Ascii.eqb a c || occurs c s'
  end.

(** The first code unit of [marker] does not occur in [pre]. *)
Definition first_unit_absent (marker pre : string) : bool :=
  match marker with
  | EmptyString => false
  | String c _ => negb (occurs c pre)
  end.

(** Truthiness of a string. *)
Definition truthy (s : string) : bool :=
  match s with
  | EmptyString => false
  | String _ _ => true
  end.

(** [c] is a syntax character of regular expressions. *)
Definition is_syntax_character (c : ascii) : bool :=
  occurs c "^$\.*+?()[]{}|".

(** [s] used as a pattern matches itself and nothing else: none of its
    code units is a syntax character. *)
Fixpoint literal_pattern (s : string) : bool :=
  match s with
  | EmptyString => true
  | String c s' => negb (is_syntax_character c) && literal_pattern s'
  end.

(** What follows the prefix [p] in [s], when [s] starts with [p]. *)
Fixpoint strip_prefix (p s : string) : option string :=
  match p, s with
  | EmptyString, _ => Some s
  | String _ _, EmptyString => None
  | String a p', String b s' => if Ascii.eqb a b then strip_prefix p' s' else None
  end.

(** A string of the model holds code units below 256. The upper case
    of such a code unit may lie above: a name made with it is a list of
    UTF-16 code units, as numbers. *)
Fixpoint units (s : string) : list N :=
  match s with
  | EmptyString => []
  | String c s' => N_of_ascii c :: units s'
  end.

(** The string of code units that are all below 256; there is none for
    the others. *)
Fixpoint string_of_units (us : list N) : option string :=
  match us with
  | [] => Some EmptyString
  | u :: rest =>
      if (u <? 256)%N then
        match string_of_units rest with
        | Some s => Some (String (ascii_of_N u) s)
        | None => None
        end
      else None
  end.

(** The upper case of one code unit below 256: [a]..[z] and the
    letters U+00E0..U+00FE (U+00F7, the division sign, apart) move down
    by 32, U+00B5 becomes U+039C, U+00FF becomes U+0178, U+00DF becomes
    [SS], and the others stay. *)
Definition upper_unit (c : ascii) : list N :=
  let n := N_of_ascii c in
  if (97 <=? n)%N && (n <=? 122)%N then [n - 32]%N
  else if (n =? 181)%N then [924]%N
  else if (n =? 255)%N then [376]%N
  else if (n =? 223)%N then [83; 83]%N
  else if (224 <=? n)%N && (n <=? 254)%N && negb (n =? 247)%N then [n - 32]%N
  else [n].

(** [s.toUpperCase()], as code units. *)
Fixpoint toUpperCase (s : string) : list N :=
  match s with
  | EmptyString => []
  | String c s' => upper_unit c ++ toUpperCase s'
  end.

(** *** Numbers

    [Number(s)] is a double. A finite double is kept as sign, integer
    significand and binary exponent: [Fin neg m e] is
    [(-1)^neg * m * 2^e]. *)

Inductive JSNumber : Type :=
  | NaN
  | Inf (neg : bool)
  | Fin (neg : bool) (m e : Z).

Definition isNaN (x : JSNumber) : bool :=
  match x with
  | NaN => true
  | _ => false
  end.

(** The integer nearest to [p / q] for [q > 0], ties to even. *)
Definition round_half_even (p q : Z) : Z :=
  let d := p / q in
  match 2 * (p mod q) ?= q with
  | Lt => d
  | Gt => d + 1
  | Eq => if Z.even d then d else d + 1
  end.

(** [2^k <= p / q]. *)
Definition ge_pow2 (p q k : Z) : bool :=
  if 0 <=? k then q * 2 ^ k <=? p else q <=? p * 2 ^ (- k).

(** The largest [k] with [2^k <= p / q], for positive [p] and [q]. *)
Definition binary_exponent (p q : Z) : Z :=
  let k := Z.log2 p - Z.log2 q in
  if ge_pow2 p q k then k else k - 1.

(** The double nearest to the rational [p / q] ([0 <= p], [0 < q]):
    53 significant bits, exponent at least -1022 (below that the spacing
    stays [2^-1074]), ties to even, overflow to infinity. *)
Definition round_to_double (neg : bool) (p q : Z) : JSNumber :=
  if p =? 0 then Fin neg 0 0
  else
    let k := binary_exponent p q in
    let e := Z.max k (-1022) - 52 in
    let m := if 0 <=? e then round_half_even p (q * 2 ^ e)
             else round_half_even (p * 2 ^ (- e)) q in
    if (0 <=? e) && (2 ^ 1024 <=? m * 2 ^ e) then Inf neg else Fin neg m e.

Definition code (c : ascii) : Z := Z.of_N (N_of_ascii c).

(** StrWhiteSpaceChar, among the code units below 256: TAB, LF, VT, FF,
    CR, SP and NBSP. *)
Definition is_whitespace (c : ascii) : bool :=
  let n := code c in
  ((9 <=? n) && (n <=? 13)) || (n =? 32) || (n =? 160).

Definition is_digit (c : ascii) : bool :=
  let n := code c in (48 <=? n) && (n <=? 57).

(** [/^\d*$/]: every code unit is a decimal digit. *)
Fixpoint all_digits (s : string) : bool :=
  match s with
  | EmptyString => true
  | String c s' => is_digit c && all_digits s'
  end.

(** The first code unit of [marker] is not a decimal digit. *)
Definition starts_with_non_digit (marker : string) : bool :=
  match marker with
  | EmptyString => false
  | String c _ => negb (is_digit c)
  end.

(** The value of a digit in any base up to 16. *)
Definition digit_of (c : ascii) : option Z :=
  let n := code c in
  if (48 <=? n) && (n <=? 57) then Some (n - 48)
  else if (97 <=? n) && (n <=? 102) then Some (n - 87)
  else if (65 <=? n) && (n <=? 70) then Some (n - 55)
  else None.

(** The value of a string of digits of the given base, read from the
    left with [acc] the value read so far; [None] when a code unit is not
    a digit of that base. *)
Fixpoint digits_value (base acc : Z) (s : string) : option Z :=
  match s with
  | EmptyString => Some acc
  | String c s' =>
      match digit_of c with
      | Some d => if d <? base then digits_value base (base * acc + d) s' else None
      | None => None
      end
  end.

(** The value of a string of decimal digits. *)
Definition decimal (s : string) : Z :=
  match digits_value 10 0 s with
  | Some n => n
  | None => 0
  end.

Fixpoint trim_start (s : string) : string :=
  match s with
  | EmptyString => EmptyString
  | String c s' => if is_whitespace c then trim_start s' else s
  end.

Fixpoint trim_end (s : string) : string :=
  match s with
  | EmptyString => EmptyString
  | String c s' =>
      match trim_end s' with
      | EmptyString => if is_whitespace c then EmptyString else String c EmptyString
      | t => String c t
      end
  end.

Definition trim (s : string) : string := trim_end (trim_start s).

(** The longest prefix of decimal digits, and what follows it. *)
Fixpoint span_digits (s : string) : string * string :=
  match s with
  | EmptyString => (EmptyString, EmptyString)
  | String c s' =>
      if is_digit c
      then let (d, r) := span_digits s' in (String c d, r)
      else (EmptyString, s)
  end.

(** NonDecimalIntegerLiteral: [0x], [0o] or [0b] (either case) and at
    least one digit of that base. *)
Definition non_decimal (s : string) : option Z :=
  match s with
  | String z (String b (String c s')) =>
      if Ascii.eqb z "0" then
        if Ascii.eqb b "x" || Ascii.eqb b "X" then digits_value 16 0 (String c s')
        else if Ascii.eqb b "o" || Ascii.eqb b "O" then digits_value 8 0 (String c s')
        else if Ascii.eqb b "b" || Ascii.eqb b "B" then digits_value 2 0 (String c s')
        else None
      else None
  | _ => None
  end.

(** An optional sign: whether it is [-], and what follows it. *)
Definition sign_prefix (s : string) : bool * string :=
  match s with
  | String c t =>
      if Ascii.eqb c "+" then (false, t)
      else if Ascii.eqb c "-" then (true, t)
      else (false, s)
  | EmptyString => (false, s)
  end.

(** ExponentPart, optional, up to the end of the literal. *)
Definition exponent_part (s : string) : option Z :=
  match s with
  | EmptyString => Some 0
  | String c s' =>
      if Ascii.eqb c "e" || Ascii.eqb c "E" then
        let '(neg, t) := sign_prefix s' in
        let (d, r) := span_digits t in
        match d, r with
        | String _ _, EmptyString => Some (if neg then - decimal d else decimal d)
        | _, _ => None
        end
      else None
  end.

(** StrUnsignedDecimalLiteral other than [Infinity], as a pair [(m, e)]
    standing for [m * 10^e]: digits with an optional fraction, or a
    fraction alone, and an optional exponent. *)
Definition unsigned_decimal (s : string) : option (Z * Z) :=
  let (int_part, r) := span_digits s in
  let '(frac, r') :=
    match r with
    | String c t => if Ascii.eqb c "." then span_digits t else (EmptyString, r)
    | EmptyString => (EmptyString, r)
    end in
  if truthy int_part || truthy frac then
    match exponent_part r' with
    | Some e => Some (decimal (int_part ++ frac), e - Z.of_nat (String.length frac))
    | None => None
    end
  else None.

(** StrDecimalLiteral: an optional sign, then [Infinity] or an unsigned
    decimal literal. *)
Definition decimal_literal (s : string) : JSNumber :=
  let '(neg, t) := sign_prefix s in
  if String.eqb t "Infinity" then Inf neg
  else
    match unsigned_decimal t with
    | Some (m, e) =>
        if 0 <=? e then round_to_double neg (m * 10 ^ e) 1
        else round_to_double neg m (10 ^ (- e))
    | None => NaN
    end.

(** StringToNumber: white space is trimmed, the empty string is [+0],
    anything that is not a numeric literal is [NaN]. *)
Definition StringToNumber (s : string) : JSNumber :=
  match trim s with
  | EmptyString => Fin false 0 0
  | t =>
      match non_decimal t with
      | Some n => round_to_double false n 1
      | None => decimal_literal t
      end
  end.

(** [Number(x)] where [x] is a string or [undefined]. *)
Definition Number (x : option string) : JSNumber :=
  match x with
  | None => NaN
  | Some s => StringToNumber s
  end.

(** The array index a number denotes as a property key, if any: the
    number is an integer in [0, 2^32 - 1). Negative zero prints as [0]. *)
Definition array_index (x : JSNumber) : option Z :=
  match x with
  | Fin neg m e =>
      if neg && negb (m =? 0) then None
      else if 0 <=? e then
        if m * 2 ^ e <? 2 ^ 32 - 1 then Some (m * 2 ^ e) else None
      else if (m mod 2 ^ (- e) =? 0) && (m / 2 ^ (- e) <? 2 ^ 32 - 1)
      then Some (m / 2 ^ (- e))
      else None
  | _ => None
  end.

(** The element of an array at an integer position; [None] is
    [undefined]. *)
Fixpoint at_index (xs : list string) (i : Z) : option string :=
  match xs with
  | [] => None
  | x :: rest => if i =? 0 then Some x else at_index rest (i - 1)
  end.

(** [xs[n]] for a non-negative integer [n]: array indices stop below
    [2^32 - 1]. *)
Definition element (xs : list string) (n : Z) : option string :=
  if n <? 2 ^ 32 - 1 then at_index xs n else None.

(** [xs[x]] for an array of strings and a number [x]: a key that is not
    an array index names no property of an array. *)
Definition get (xs : list string) (x : JSNumber) : option string :=
  match array_index x with
  | Some i => at_index xs i
  | None => None
  end.

End JS.


(** ** The syntax tree

    A node is a bag of properties, as in PostCSS. [raws] holds the
    captured formatting: string-valued slots under arbitrary names
    ([before], [between], [linariaBefore], ...) and, on a root, the table
    of template expressions. *)

Module NodeType.
Inductive t : Type := document | root | atrule | rule | decl | comment.

Definition eqb (a b : t) : bool :=
  match a, b with
  | document, document | root, root | atrule, atrule
  | rule, rule | decl, decl | comment, comment => true
  | _, _ => false
  end.
End NodeType.

(** The third argument of a builder: ['start'] or ['end']. *)
Inductive Boundary : Type := boundary_start | boundary_end.

Record Raws : Type := mkRaws {
  slots : gmap string string;
  linariaTemplateExpressions : option (list string)
}.

#[warnings="-register-all"]
Inductive Node : Type := mkNode {
  type : NodeType.t;
  raws : Raws;
  text : string;                 (* comment *)
  prop : string;                 (* declaration *)
  value : string;                (* declaration *)
  important : bool;              (* declaration *)
  selector : string;             (* rule *)
  nodes : list Node;             (* containers *)
  source_input_css : option string;   (* node.source?.input.css *)
  parent : option Node
}.

(** [node.raws.name] for a string-valued slot; [None] is [undefined]. *)
Definition raws_slot (node : Node) (name : string) : option string :=
  slots (raws node) !! name.

(** A slot of [node.raws] when its value is truthy. *)
Definition truthy_slot (node : Node) (name : string) : option string :=
  match raws_slot node name with
  | Some s => if JS.truthy s then Some s else None
  | None => None
  end.

(** [node.root()]: climb the parents, stopping below a document. *)
Fixpoint root_of (node : Node) : Node :=
  match node with
  | mkNode _ _ _ _ _ _ _ _ _ par =>
      match par with
      | Some p =>
          match type p with
          | NodeType.document => node
          | _ => root_of p
          end
      | None => node
      end
  end.

(** [node.root().raws.linariaTemplateExpressions]. *)
Definition root_expressions (node : Node) : option (list string) :=
  linariaTemplateExpressions (raws (root_of node)).

(** The values other than strings and arrays of strings that are
    modelled: the falsy ones, and [true]. *)
Inductive Plain : Type :=
  | plain_undefined | plain_null | plain_false | plain_true | plain_zero | plain_NaN.

(** A value found under a name in [raws], and its text form as a
    template literal prints it. *)
Inductive RawValue : Type :=
  | RawText (s : string)
  | RawTexts (xs : list string)
  | RawPlain (v : Plain).

Definition own_property (r : Raws) (name : string) : option RawValue :=
  if String.eqb name "linariaTemplateExpressions"
  then RawTexts <$> linariaTemplateExpressions r
  else RawText <$> slots r !! name.

(** The own property under a name given by its code units: the names
    of the modelled raws are strings of the model. *)
Definition own_units (r : Raws) (name : list N) : option RawValue :=
  match JS.string_of_units name with
  | Some key => own_property r key
  | None => None
  end.

Definition text_form (v : RawValue) : string :=
  match v with
  | RawText s => s
  | RawTexts xs => JS.join xs ","
  | RawPlain plain_undefined => "undefined"
  | RawPlain plain_null => "null"
  | RawPlain plain_false => "false"
  | RawPlain plain_true => "true"
  | RawPlain plain_zero => "0"
  | RawPlain plain_NaN => "NaN"
  end.

(** ** The stringifier

    [LinariaStringifier] extends the PostCSS [Stringifier]. The class is
    modelled over what it is given: the two placeholder markers (the
    constants of [./util]), the caller's sink [builder], and the methods
    of the generic printer it inherits or reaches through [super]. A sink
    and the printing methods act on the state [St] of the sink. *)

Module LinariaStringifier.
Section Stringifier.

Context {St : Type}.

(** [placeholderText] and [shortPlaceholderText] of [./util]. *)
Variable placeholderText shortPlaceholderText : string.

(** The [Builder] passed to [stringify]. *)
Variable builder : string -> option Node -> option Boundary -> St -> St.

(** The generic printer: [super.comment], [super.document], [this.body],
    [this.block], [this.atrule], [super.raw] and [super.rawValue]. *)
Variable super_comment : Node -> St -> St.
Variable super_document : Node -> St -> St.
Variable body : Node -> St -> St.
Variable block : Node -> string -> St -> St.
Variable atrule : Node -> bool -> St -> St.
Variable super_raw : Node -> string -> option string -> string.
Variable super_rawValue : Node -> string -> string.

(** The lookup shared by the handlers:
    [expressions && !Number.isNaN(index) && expressions[index]], kept
    when it is truthy. *)
Definition truthy_expression
    (expressions : option (list string)) (index : JS.JSNumber) : option string :=
  match expressions with
  | Some es =>
      if negb (JS.isNaN index) then
        match JS.get es index with
        | Some expression => if JS.truthy expression then Some expression else None
        | None => None
        end
      else None
  | None => None
  end.

(** The body of the [forEach] in [substitutePlaceholders]: what is pushed
    for one token. *)
Definition substitute_token (expressions : option (list string)) (val : string) : string :=
  let expressionIndexString := JS.second (JS.split val shortPlaceholderText) in
  let expressionIndex := JS.Number expressionIndexString in
  match truthy_expression expressions expressionIndex with
  | Some expression => expression
  | None => val
  end.

Definition substitutePlaceholders
    (stringWithPlaceholders : string) (expressions : option (list string)) : string :=
  if negb (JS.includes stringWithPlaceholders shortPlaceholderText)
  then stringWithPlaceholders
  else
    let values := JS.split stringWithPlaceholders " " in
    let temp := map (substitute_token expressions) values in
    JS.join temp " ".

(** The escaping of the constructor: [str.replace(/\\/g, '\\\\')] and
    then [.replace(/`/g, '\\`')]. *)
Definition escape (str : string) : string :=
  JS.replace_all "`" "\`" (JS.replace_all "\" "\\" str).

(** The constructor's [wrappedBuilder], which becomes [this.builder]. *)
Definition wrappedBuilder
    (str : string) (node : option Node) (type_ : option Boundary) : St -> St :=
  match node with
  | None => builder str node type_
  | Some n =>
      if NodeType.eqb (type n) NodeType.root
      then builder str node type_
      else builder (escape str) node type_
  end.

(** [new RegExp(`^${placeholderText}:\\d+$`).test(text)], for a marker
    that is a literal pattern ([JS.literal_pattern]): the marker, a colon
    and one or more decimal digits, and nothing else. *)
Definition placeholderPattern_test (s : string) : bool :=
  match JS.strip_prefix (placeholderText ++ ":") s with
  | Some digits => JS.truthy digits && JS.all_digits digits
  | None => false
  end.

(** The expression [comment] emits before its early [return], if it
    reaches it. *)
Definition comment_expression (node : Node) : option string :=
  if placeholderPattern_test (text node) then
    let expressionIndexString := JS.second (JS.split (text node) ":") in
    let expressionIndex := JS.Number expressionIndexString in
    let expressionStrings := root_expressions node in
    truthy_expression expressionStrings expressionIndex
  else None.

Definition comment (node : Node) : St -> St :=
  match comment_expression node with
  | Some expression => wrappedBuilder expression (Some node) None
  | None => super_comment node
  end.

(** [own === generic && node.raws[generic] && node.raws[override]]:
    the override, when the three conjuncts are truthy. *)
Definition raw_override (node : Node) (own generic override : string) : option string :=
  if String.eqb own generic then
    match truthy_slot node generic with
    | Some _ => truthy_slot node override
    | None => None
    end
  else None.

Definition raw (node : Node) (own : string) (detect : option string) : string :=
  match raw_override node own "before" "linariaBefore" with
  | Some linariaBefore => linariaBefore
  | None =>
      match raw_override node own "after" "linariaAfter" with
      | Some linariaAfter => linariaAfter
      | None =>
          match raw_override node own "between" "linariaBetween" with
          | Some linariaBetween => linariaBetween
          | None => super_raw node own detect
          end
      end
  end.

(** [`linaria${prop[0]?.toUpperCase()}${prop.slice(1)}`], as code
    units: [prop[0]] of the empty name is [undefined] and prints as
    such. *)
Definition linariaProp (prop : string) : list N :=
  JS.units "linaria" ++
  match prop with
  | EmptyString => JS.units "undefined"
  | String c rest => JS.toUpperCase (String c EmptyString) ++ JS.units rest
  end.

(** The body of [rawValue] over [node.raws] seen as a lookup of own
    properties by name, whatever the values are. *)
Definition rawValue_in
    (own : list N -> option RawValue) (node : Node) (prop : string) : string :=
  match own (linariaProp prop) with
  | Some v => text_form v
  | None => super_rawValue node prop
  end.

Definition rawValue (node : Node) (prop : string) : string :=
  rawValue_in (own_units (raws node)) node prop.

(** The property name [decl] prints. *)
Definition decl_prop (node : Node) : string :=
  if JS.includes (prop node) placeholderText then
    let expressionIndexString := JS.second (JS.split (prop node) placeholderText) in
    let expressionIndex := JS.Number expressionIndexString in
    let expressionStrings := root_expressions node in
    match truthy_expression expressionStrings expressionIndex with
    | Some expression => expression
    | None => prop node
    end
  else prop node.

(** The value [decl] prints. *)
Definition decl_value (node : Node) : string :=
  let value := rawValue node "value" in
  if JS.includes value shortPlaceholderText
  then substitutePlaceholders value (root_expressions node)
  else value.

(** [node.raws.important || ' !important']. *)
Definition important_text (node : Node) : string :=
  match truthy_slot node "important" with
  | Some important => important
  | None => " !important"
  end.

Definition decl (node : Node) (semicolon : bool) : St -> St :=
  let between := raw node "between" (Some "colon") in
  let string0 := decl_prop node ++ between ++ decl_value node in
  let string1 := if important node then string0 ++ important_text node else string0 in
  let string2 := if semicolon then string1 ++ ";" else string1 in
  wrappedBuilder string2 (Some node) None.

Definition document (node : Node) : St -> St :=
  match nodes node with
  | [] => wrappedBuilder (default "" (source_input_css node)) None None
  | _ :: _ => super_document node
  end.

(** [node.raws.linariaAfter ?? node.raws.after]. *)
Definition root_after (node : Node) : option string :=
  match raws_slot node "linariaAfter" with
  | Some a => Some a
  | None => raws_slot node "after"
  end.

Definition root (node : Node) (st : St) : St :=
  let st1 := wrappedBuilder (default "" (raws_slot node "codeBefore"))
               (Some node) (Some boundary_start) st in
  let st2 := body node st1 in
  let st3 :=
    match root_after node with
    | Some after =>
        if JS.truthy after then wrappedBuilder after None None st2 else st2
    | None => st2
    end in
  wrappedBuilder (default "" (raws_slot node "codeAfter"))
    (Some node) (Some boundary_end) st3.

Definition rule (node : Node) (st : St) : St :=
  let value := rawValue node "selector" in
  let value' :=
    if JS.includes value shortPlaceholderText
    then substitutePlaceholders value (root_expressions node)
    else value in
  let st1 := block node value' st in
  match truthy_slot node "ownSemicolon" with
  | Some ownSemicolon => wrappedBuilder ownSemicolon (Some node) (Some boundary_end) st1
  | None => st1
  end.

(** [str.stringify(node)]: the generic dispatch on the node's type,
    landing in the handlers above. *)
Definition stringify (node : Node) : St -> St :=
  match type node with
  | NodeType.document => document node
  | NodeType.root => root node
  | NodeType.atrule => atrule node false
  | NodeType.rule => rule node
  | NodeType.decl => decl node false
  | NodeType.comment => comment node
  end.

End Stringifier.
End LinariaStringifier.

(** ** The behaviour as the specification words it

    Where the specification's wording and the code part ways, the wording
    is written down here as a definition of its own, to be compared with
    the code's. *)

Module Claimed.
Section Claimed.

Context {St : Type}.
Variable placeholderText shortPlaceholderText : string.
Variable builder : string -> option Node -> option Boundary -> St -> St.
Variable super_comment : Node -> St -> St.
Variable super_raw : Node -> string -> option string -> string.
Variable super_rawValue : Node -> string -> string.

(** The escaping told in one pass: a backslash becomes two, a backtick
    becomes a backslash and a backtick, any other code unit stays. *)
Definition escape_unit (c : ascii) : string :=
  if Ascii.eqb c "\" then "\\"
  else if Ascii.eqb c "`" then "\`"
  else String c EmptyString.

(** A token is replaced when it is the marker followed by an index that
    resolves to a present entry, and kept otherwise. *)
Definition substitute_token (expressions : option (list string)) (val : string) : string :=
  match JS.strip_prefix shortPlaceholderText val, expressions with
  | Some digits, Some es =>
      if JS.truthy digits && JS.all_digits digits then
        match JS.element es (JS.decimal digits) with
        | Some expression => expression
        | None => val
        end
      else val
  | _, _ => val
  end.

Definition substitutePlaceholders
    (stringWithPlaceholders : string) (expressions : option (list string)) : string :=
  if negb (JS.includes stringWithPlaceholders shortPlaceholderText)
  then stringWithPlaceholders
  else JS.join (map (substitute_token expressions)
                    (JS.split stringWithPlaceholders " ")) " ".

(** A comment is replaced by the expression when its text is the full
    marker, a colon and digits, and the index resolves to a present
    entry; it is printed by the generic printer otherwise. *)
Definition comment (node : Node) : St -> St :=
  match JS.strip_prefix (placeholderText ++ ":") (text node), root_expressions node with
  | Some digits, Some es =>
      if JS.truthy digits && JS.all_digits digits then
        match JS.element es (JS.decimal digits) with
        | Some expression =>
            LinariaStringifier.wrappedBuilder builder expression (Some node) None
        | None => super_comment node
        end
      else super_comment node
  | _, _ => super_comment node
  end.

(** The override slot that goes with a raw slot. *)
Definition override_slot (own : string) : option string :=
  if String.eqb own "before" then Some "linariaBefore"
  else if String.eqb own "after" then Some "linariaAfter"
  else if String.eqb own "between" then Some "linariaBetween"
  else None.

(** The override is returned when the slot is one of the three, the
    generic raw value is non-empty and the override is present. *)
Definition raw (node : Node) (own : string) (detect : option string) : string :=
  match override_slot own with
  | Some name =>
      match truthy_slot node own, raws_slot node name with
      | Some _, Some override => override
      | _, _ => super_raw node own detect
      end
  | None => super_raw node own detect
  end.

(** An important declaration ends with its captured raw text when that
    is present, and with the default otherwise. *)
Definition important_text (node : Node) : string :=
  match raws_slot node "important" with
  | Some important => important
  | None => " !important"
  end.

Definition decl (node : Node) (semicolon : bool) : St -> St :=
  LinariaStringifier.wrappedBuilder builder
    (LinariaStringifier.decl_prop placeholderText node
     ++ LinariaStringifier.raw super_raw node "between" (Some "colon")
     ++ LinariaStringifier.decl_value shortPlaceholderText super_rawValue node
     ++ (if important node then important_text node else "")
     ++ (if semicolon then ";" else ""))
    (Some node) None.

End Claimed.
End Claimed.

(** ** A sink and a generic printer to run the handlers on

    The sink appends what it is sent to the text printed so far. The
    stand-ins for the generic printer print a comment between its
    delimiters and resolve a raw slot to the node's own captured value. *)

Module Sample.

Definition placeholderText : string := "pcss-lin".
Definition shortPlaceholderText : string := "pcss_lin".

Definition text_sink (str : string) (_ : option Node) (_ : option Boundary)
    (printed : string) : string :=
  printed ++ str.

Definition generic_comment (node : Node) (printed : string) : string :=
  LinariaStringifier.wrappedBuilder text_sink
    ("/*" ++ text node ++ "*/") (Some node) None printed.

Definition generic_document (node : Node) (printed : string) : string :=
  printed ++ "<document>".

Definition generic_body (node : Node) (printed : string) : string :=
  printed ++ "<body>".

Definition generic_raw (node : Node) (own : string) (_ : option string) : string :=
  default "" (raws_slot node own).

Definition generic_rawValue (node : Node) (prop : string) : string :=
  if String.eqb prop "value" then value node
  else if String.eqb prop "selector" then selector node
  else "".

(** A line break and two spaces. *)
Definition line_break_indent : string := String (ascii_of_nat 10) "  ".

Definition no_raws : Raws := mkRaws ∅ None.

Definition root_node (rs : Raws) : Node :=
  mkNode NodeType.root rs "" "" "" false "" [] None None.

Definition comment_node (txt : string) (par : Node) : Node :=
  mkNode NodeType.comment no_raws txt "" "" false "" [] None (Some par).

Definition decl_node
    (rs : gmap string string) (p v : string) (imp : bool) (par : Node) : Node :=
  mkNode NodeType.decl (mkRaws rs None) "" p v imp "" [] None (Some par).

Definition document_node (children : list Node) (css : option string) : Node :=
  mkNode NodeType.document no_raws "" "" "" false "" children css None.

(** A declaration [color: red] with the given [before] and
    [linariaBefore] raws. *)
Definition decl_with_before (before override : string) (par : Node) : Node :=
  decl_node (<["before" := before]> (<["linariaBefore" := override]> ∅))
    "color" "red" false par.

(** A root with the expression table [es] and no formatting. *)
Definition root_with (es : list string) : Node :=
  root_node (mkRaws ∅ (Some es)).

End Sample.

(** ** Shapes of text

    Predicates on text used to state what the stringifier does to it. *)

Module Shape.

(** Text in which backslashes and backticks come in escaped pairs only:
    read from the left, a backslash is followed by a backslash or a
    backtick, which it takes with it, and no backtick stands on its
    own. *)
Fixpoint well_escaped (s : string) : bool :=
  match s with
  | EmptyString => true
  | String c s' =>
      if Ascii.eqb c "\" then
        match s' with
        | EmptyString => false
        | String d s'' => (Ascii.eqb d "\" || Ascii.eqb d "`") && well_escaped s''
        end
      else if Ascii.eqb c "`" then false
      else well_escaped s'
  end.

(** How often the code unit [c] occurs in [s]. *)
Fixpoint count_unit (c : ascii) (s : string) : nat :=
  match s with
  | EmptyString => O
  | String a s' => ((if Ascii.eqb a c then 1 else 0) + count_unit c s')%nat
  end.

(** A code unit a numeric literal can start with, white space before it
    included: a digit, a sign, a point or the [I] of [Infinity]. *)
Definition may_start_number (c : ascii) : bool :=
  JS.is_digit c || JS.is_whitespace c
  || Ascii.eqb c "+" || Ascii.eqb c "-" || Ascii.eqb c "." || Ascii.eqb c "I".

(** A code unit that can follow the digits of a numeric literal inside
    the literal, or after it as white space: a digit, a point, the [e] of
    an exponent, or the [x], [o], [b] of another base. *)
Definition may_continue_number (c : ascii) : bool :=
  JS.is_digit c || JS.is_whitespace c || Ascii.eqb c "."
  || Ascii.eqb c "e" || Ascii.eqb c "E" || Ascii.eqb c "x" || Ascii.eqb c "X"
  || Ascii.eqb c "o" || Ascii.eqb c "O" || Ascii.eqb c "b" || Ascii.eqb c "B".

End Shape.

(** ** Tokens cut at the marker

    What [val.split(marker)] makes of a token, told from the left: the
    first occurrence of the marker, and the text that follows it. *)

Module Token.

(** [s] cut at the first occurrence of [marker]: what stands before it
    and what stands after it. *)
Fixpoint cut (marker s : string) : option (string * string) :=
  match JS.strip_prefix marker s with
  | Some rest => Some (EmptyString, rest)
  | None =>
      match s with
      | EmptyString => None
      | String a s' =>
          match cut marker s' with
          | Some (pre, rest) => Some (String a pre, rest)
          | None => None
          end
      end
  end.

(** The text that follows the first occurrence of the marker in a
    token, up to the next occurrence of the marker or to the end of the
    token. *)
Definition index_text (marker tok : string) : option string :=
  match cut marker tok with
  | Some (_, rest) =>
      match cut marker rest with
      | Some (index, _) => Some index
      | None => Some rest
      end
  | None => None
  end.

End Token.

(** ** A stand-in for the generic block printing

    It prints the selector it is given and a pair of braces. *)

Module SampleRule.

Definition generic_block (node : Node) (sel : string) (printed : string) : string :=
  printed ++ sel ++ "{}".

Definition rule_node (rs : gmap string string) (sel : string) (par : Node) : Node :=
  mkNode NodeType.rule (mkRaws rs None) "" "" "" false sel [] None (Some par).

End SampleRule.

(** * Facts about the JavaScript primitives *)

Module JSFacts.
Import JS.

Lemma append_nil_r s : s ++ "" = s.
Proof. induction s as [|a s IH]; simpl; [reflexivity | now rewrite IH]. Qed.

Lemma append_assoc s1 s2 s3 : (s1 ++ s2) ++ s3 = s1 ++ (s2 ++ s3).
Proof. induction s1 as [|a s1 IH]; simpl; [reflexivity | now rewrite IH]. Qed.

Lemma replace_all_app c r s1 s2 :
  replace_all c r (s1 ++ s2) = replace_all c r s1 ++ replace_all c r s2.
Proof.
  induction s1 as [|a s1 IH]; simpl; [reflexivity|].
  rewrite IH. destruct (Ascii.eqb a c); simpl.
  - symmetry. apply append_assoc.
  - reflexivity.
Qed.

Lemma starts_with_app p s : starts_with p (p ++ s) = true.
Proof.
  induction p as [|a p IH]; simpl; [reflexivity|].
  rewrite Ascii.eqb_refl. exact IH.
Qed.

Lemma includes_app s p t : includes (s ++ p ++ t) p = true.
Proof.
  induction s as [|a s IH]; simpl.
  - destruct p; simpl.
    + destruct t; reflexivity.
    + rewrite Ascii.eqb_refl, starts_with_app. reflexivity.
  - rewrite IH. apply orb_true_r.
Qed.

Lemma split_scan_nonempty sep s k : split_scan sep s k <> [].
Proof.
  revert k. induction s as [|a s IH]; intros k; simpl; [discriminate|].
  destruct k; [|apply IH].
  destruct (starts_with sep (String a s)); [discriminate|].
  destruct (split_scan sep s 0); discriminate.
Qed.

(** A string without the separator is one piece. *)
Lemma split_not_included s sep :
  sep <> "" -> includes s sep = false -> split s sep = [s].
Proof.
  intros Hsep. destruct sep as [|c sep']; [congruence|]. unfold split.
  induction s as [|a s IH]; intros H; [reflexivity|].
  cbn [includes] in H. apply orb_false_iff in H as [Hs Hi].
  cbn [split_scan]. rewrite Hs, (IH Hi). reflexivity.
Qed.

Lemma split_scan_skip sep t s :
  split_scan sep (t ++ s) (String.length t) = split_scan sep s 0.
Proof. induction t as [|a t IH]; simpl; [reflexivity | exact IH]. Qed.

(** A separator at the front gives an empty first piece. *)
Lemma split_scan_sep sep s :
  sep <> "" -> split_scan sep (sep ++ s) 0 = "" :: split_scan sep s 0.
Proof.
  intros Hsep. destruct sep as [|c sep']; [congruence|].
  change (String c sep' ++ s) with (String c (sep' ++ s)).
  cbn [split_scan].
  change (String c (sep' ++ s)) with (String c sep' ++ s).
  rewrite starts_with_app. cbn [String.length].
  rewrite Nat.sub_1_r. cbn [Nat.pred]. rewrite split_scan_skip. reflexivity.
Qed.

Lemma split_scan_prefix c sep' pre s piece rest :
  occurs c pre = false ->
  split_scan (String c sep') s 0 = piece :: rest ->
  split_scan (String c sep') (pre ++ s) 0 = (pre ++ piece) :: rest.
Proof.
  intros H E. induction pre as [|a pre IH]; simpl; [exact E|].
  simpl in H. apply orb_false_iff in H as [Hac Hpre].
  rewrite Ascii.eqb_sym in Hac. rewrite Hac. simpl.
  rewrite (IH Hpre). reflexivity.
Qed.

(** The pieces around the first separator, when the separator's first
    code unit does not occur before it. *)
Lemma split_first c sep' pre s :
  occurs c pre = false ->
  split (pre ++ String c sep' ++ s) (String c sep') =
  pre :: split s (String c sep').
Proof.
  intros H. unfold split.
  rewrite (split_scan_prefix _ _ _ _ "" (split_scan (String c sep') s 0) H).
  - rewrite append_nil_r. reflexivity.
  - apply split_scan_sep. discriminate.
Qed.

Lemma join_cons_unit a piece rest sep :
  join (String a piece :: rest) sep = String a (join (piece :: rest) sep).
Proof. destruct rest; reflexivity. Qed.

(** Splitting on a space and joining with a space gives the string back. *)
Lemma join_split_space s : join (split s " ") " " = s.
Proof.
  unfold split. induction s as [|a s IH]; [reflexivity|].
  cbn [split_scan starts_with String.length].
  destruct (split_scan " " s 0) as [|p r] eqn:E;
    [exfalso; exact (split_scan_nonempty _ _ _ E)|].
  destruct (Ascii.eqb_spec " " a) as [<-|Hne]; simpl andb; cbv iota.
  - change (1 - 1)%nat with 0%nat. rewrite E.
    change (join ("" :: p :: r) " ") with (String " " (join (p :: r) " ")).
    rewrite IH. reflexivity.
  - rewrite join_cons_unit, IH. reflexivity.
Qed.

(** *** Numbers written as decimal digits *)

Lemma digit_not_whitespace c : is_digit c = true -> is_whitespace c = false.
Proof. unfold is_digit, is_whitespace. generalize (code c). intros n. lia. Qed.

Lemma digit_neq c d : is_digit c = true -> is_digit d = false -> Ascii.eqb c d = false.
Proof.
  intros Hc Hd. destruct (Ascii.eqb_spec c d) as [->|]; [congruence | reflexivity].
Qed.

Lemma trim_start_digits ds : all_digits ds = true -> trim_start ds = ds.
Proof.
  destruct ds as [|c ds]; [reflexivity|]. simpl. intros H.
  apply andb_true_iff in H as [Hc _].
  now rewrite (digit_not_whitespace _ Hc).
Qed.

Lemma trim_end_digits ds : all_digits ds = true -> trim_end ds = ds.
Proof.
  induction ds as [|c ds IH]; [reflexivity|]. simpl. intros H.
  apply andb_true_iff in H as [Hc Hds].
  rewrite (IH Hds), (digit_not_whitespace _ Hc). destruct ds; reflexivity.
Qed.

Lemma trim_digits ds : all_digits ds = true -> trim ds = ds.
Proof.
  intros H. unfold trim. rewrite (trim_start_digits _ H). now apply trim_end_digits.
Qed.

Lemma non_decimal_digits ds : all_digits ds = true -> non_decimal ds = None.
Proof.
  destruct ds as [|z [|b [|c ds]]]; try reflexivity. simpl. intros H.
  apply andb_true_iff in H as [_ H]. apply andb_true_iff in H as [Hb _].
  rewrite !(digit_neq b _ Hb) by reflexivity. simpl.
  now destruct (Ascii.eqb z "0").
Qed.

Lemma span_digits_all ds : all_digits ds = true -> span_digits ds = (ds, "").
Proof.
  induction ds as [|c ds IH]; [reflexivity|]. simpl. intros H.
  apply andb_true_iff in H as [Hc Hds]. now rewrite Hc, (IH Hds).
Qed.

Lemma unsigned_decimal_digits ds :
  ds <> "" -> all_digits ds = true -> unsigned_decimal ds = Some (decimal ds, 0).
Proof.
  intros Hne H. unfold unsigned_decimal. rewrite (span_digits_all _ H).
  destruct ds as [|c ds]; [congruence|]. simpl truthy. simpl orb. cbv iota.
  simpl exponent_part. rewrite append_nil_r. reflexivity.
Qed.

Lemma decimal_literal_digits ds :
  ds <> "" -> all_digits ds = true ->
  decimal_literal ds = round_to_double false (decimal ds) 1.
Proof.
  intros Hne H. unfold decimal_literal.
  assert (Hsign : sign_prefix ds = (false, ds)).
  { destruct ds as [|c ds]; [reflexivity|]. simpl in H |- *.
    apply andb_true_iff in H as [Hc _].
    now rewrite !(digit_neq c _ Hc) by reflexivity. }
  rewrite Hsign.
  assert (Hinf : String.eqb ds "Infinity" = false).
  { destruct ds as [|c ds]; [reflexivity|]. simpl in H |- *.
    apply andb_true_iff in H as [Hc _].
    now rewrite (digit_neq c _ Hc) by reflexivity. }
  rewrite Hinf, (unsigned_decimal_digits _ Hne H). simpl Z.leb. cbv iota.
  now rewrite Z.pow_0_r, Z.mul_1_r.
Qed.

Lemma StringToNumber_digits ds :
  ds <> "" -> all_digits ds = true ->
  StringToNumber ds = round_to_double false (decimal ds) 1.
Proof.
  intros Hne H. unfold StringToNumber. rewrite (trim_digits _ H).
  destruct ds as [|c ds']; [congruence|].
  now rewrite (non_decimal_digits _ H), (decimal_literal_digits _ Hne H).
Qed.

Lemma digits_value_nonneg base acc s n :
  0 <= base -> 0 <= acc -> digits_value base acc s = Some n -> 0 <= n.
Proof.
  intros Hb. revert acc. induction s as [|c s IH]; simpl; intros acc Hacc H.
  - congruence.
  - unfold digit_of in H. generalize dependent (code c). intros k H.
    destruct ((48 <=? k) && (k <=? 57)) eqn:E1;
      [|destruct ((97 <=? k) && (k <=? 102)) eqn:E2;
         [|destruct ((65 <=? k) && (k <=? 70)) eqn:E3; [|discriminate]]];
      (match type of H with (if ?b then _ else _) = _ => destruct b; [|discriminate] end);
      apply IH in H; [assumption|nia| assumption|nia| assumption|nia].
Qed.

Lemma decimal_nonneg s : 0 <= decimal s.
Proof.
  unfold decimal. destruct (digits_value 10 0 s) as [n|] eqn:E; [|lia].
  apply (digits_value_nonneg 10 0 s n); [lia | lia | exact E].
Qed.

(** *** Rounding an integer to a double *)

Lemma round_half_even_ge p q : 0 < q -> p / q <= round_half_even p q.
Proof.
  intros Hq. unfold round_half_even.
  destruct (2 * (p mod q) ?= q); [destruct (Z.even (p / q))| |]; lia.
Qed.

Lemma round_half_even_1 p : round_half_even p 1 = p.
Proof.
  unfold round_half_even. rewrite Z.mod_1_r, Z.div_1_r. reflexivity.
Qed.

Lemma binary_exponent_integer p : 0 < p -> binary_exponent p 1 = Z.log2 p.
Proof.
  intros Hp. unfold binary_exponent, ge_pow2.
  change (Z.log2 1) with 0. rewrite Z.sub_0_r.
  pose proof (Z.log2_nonneg p) as Hk.
  destruct (Z.leb_spec 0 (Z.log2 p)); [|lia].
  pose proof (Z.log2_spec p Hp) as [Hlo _].
  destruct (Z.leb_spec (1 * 2 ^ Z.log2 p) p); [reflexivity | lia].
Qed.

(** The array index of the double nearest to a non-negative integer:
    integers below [2^53] are doubles, and rounding a larger one stays at
    or above [2^53]. *)
Lemma array_index_integer p :
  0 <= p ->
  array_index (round_to_double false p 1) = if p <? 2 ^ 32 - 1 then Some p else None.
Proof.
  intros Hp. unfold round_to_double.
  destruct (Z.eqb_spec p 0) as [->|Hnz]; [reflexivity|].
  assert (Hpos : 0 < p) by lia.
  rewrite (binary_exponent_integer p Hpos).
  pose proof (Z.log2_nonneg p) as Hk.
  pose proof (Z.log2_spec p Hpos) as [Hlo Hhi].
  set (k := Z.log2 p) in *.
  rewrite Z.max_l by lia.
  destruct (Z.leb_spec 0 (k - 52)) as [He|He].
  - (* p >= 2^52 *)
    assert (H52 : 2 ^ 52 <= p).
    { etransitivity; [|exact Hlo]. apply Z.pow_le_mono_r; lia. }
    assert (Hbig : ~ p < 2 ^ 32 - 1) by (change (2 ^ 52) with 4503599627370496 in H52; lia).
    destruct (Z.ltb_spec p (2 ^ 32 - 1)); [contradiction|].
    rewrite Z.mul_1_l.
    assert (Hm : 2 ^ 52 <= round_half_even p (2 ^ (k - 52))).
    { etransitivity; [|apply round_half_even_ge; apply Z.pow_pos_nonneg; lia].
      apply Z.div_le_lower_bound; [apply Z.pow_pos_nonneg; lia|].
      rewrite <- Z.pow_add_r by lia. replace (k - 52 + 52) with k by lia. exact Hlo. }
    set (m := round_half_even p (2 ^ (k - 52))) in *.
    simpl andb.
    destruct (2 ^ 1024 <=? m * 2 ^ (k - 52)); [reflexivity|].
    unfold array_index. simpl andb. cbv iota.
    destruct (Z.leb_spec 0 (k - 52)); [|lia].
    assert (Hpow : 1 <= 2 ^ (k - 52))
      by (apply Z.pow_le_mono_r with (b := 0) (c := k - 52) (a := 2); lia).
    destruct (Z.ltb_spec (m * 2 ^ (k - 52)) (2 ^ 32 - 1)); [|reflexivity].
    change (2 ^ 52) with 4503599627370496 in Hm. change (2 ^ 32 - 1) with 4294967295 in *. nia.
  - (* p < 2^52: the significand is p shifted left *)
    simpl andb. cbv iota. rewrite round_half_even_1.
    unfold array_index. simpl andb. cbv iota.
    destruct (Z.leb_spec 0 (k - 52)); [lia|].
    assert (Hq : 0 < 2 ^ (- (k - 52))) by (apply Z.pow_pos_nonneg; lia).
    rewrite Z.mod_mul by lia. rewrite Z.div_mul by lia. simpl andb.
    reflexivity.
Qed.

Lemma at_index_nth_error xs i :
  0 <= i -> at_index xs i = nth_error xs (Z.to_nat i).
Proof.
  revert i. induction xs as [|x xs IH]; intros i Hi; simpl.
  - now destruct (Z.to_nat i).
  - destruct (Z.eqb_spec i 0) as [->|Hne]; [reflexivity|].
    rewrite IH by lia. replace (Z.to_nat i) with (S (Z.to_nat (i - 1))) by lia.
    reflexivity.
Qed.

(** The element an array index names. *)
Lemma element_nth_error xs (n : nat) :
  Z.of_nat n < 2 ^ 32 - 1 -> element xs (Z.of_nat n) = nth_error xs n.
Proof.
  intros H. unfold element. destruct (Z.ltb_spec (Z.of_nat n) (2 ^ 32 - 1)); [|lia].
  rewrite at_index_nth_error by lia. now rewrite Nat2Z.id.
Qed.

(** [xs[Number(ds)]] for a string [ds] of decimal digits is the element
    at the index [ds] denotes. *)
Lemma get_Number_digits xs ds :
  ds <> "" -> all_digits ds = true ->
  get xs (Number (Some ds)) = element xs (decimal ds).
Proof.
  intros Hne H. unfold get, Number. rewrite (StringToNumber_digits _ Hne H).
  rewrite (array_index_integer _ (decimal_nonneg ds)). unfold element.
  now destruct (decimal ds <? 2 ^ 32 - 1).
Qed.

Lemma isNaN_Number_digits ds :
  ds <> "" -> all_digits ds = true -> isNaN (Number (Some ds)) = false.
Proof.
  intros Hne H. unfold Number. rewrite (StringToNumber_digits _ Hne H).
  unfold round_to_double. destruct (decimal ds =? 0); [reflexivity|].
  match goal with |- isNaN (if ?b then _ else _) = _ => destruct b end; reflexivity.
Qed.

Lemma includes_empty s : includes s "" = true.
Proof. destruct s; reflexivity. Qed.

Lemma occurs_app c s t : occurs c (s ++ t) = occurs c s || occurs c t.
Proof.
  induction s as [|a s IH]; simpl; [reflexivity|].
  now rewrite IH, orb_assoc.
Qed.

(** A string of digits contains no string that starts with a non-digit. *)
Lemma includes_all_digits ds sep :
  starts_with_non_digit sep = true -> all_digits ds = true -> includes ds sep = false.
Proof.
  destruct sep as [|c sep']; [discriminate|]. simpl. intros Hc.
  apply negb_true_iff in Hc.
  induction ds as [|a ds IH]; [reflexivity|]. simpl. intros H.
  apply andb_true_iff in H as [Ha Hds].
  rewrite (IH Hds), orb_false_r.
  rewrite Ascii.eqb_sym, (digit_neq a c Ha Hc). reflexivity.
Qed.

(** Splitting a token on the marker: the second piece is the digits
    that follow the first occurrence of the marker. *)
Lemma second_split_marker_digits marker pre ds :
  starts_with_non_digit marker = true ->
  first_unit_absent marker pre = true ->
  all_digits ds = true ->
  second (split (pre ++ marker ++ ds) marker) = Some ds.
Proof.
  intros Hm Hpre Hds.
  pose proof (includes_all_digits ds marker Hm Hds) as Hinc.
  destruct marker as [|c marker']; [discriminate|].
  simpl in Hpre. apply negb_true_iff in Hpre.
  rewrite (split_first _ _ _ _ Hpre).
  rewrite split_not_included by (discriminate || assumption).
  reflexivity.
Qed.

End JSFacts.


(** * Properties of the stringifier *)

Import JS JSFacts.

(** ** The escaping sink *)

Section Escaping.

Context {St : Type}.
Variable builder : string -> option Node -> option Boundary -> St -> St.

Local Abbreviation wrappedBuilder := (LinariaStringifier.wrappedBuilder builder).
Local Abbreviation escape := LinariaStringifier.escape.
Local Abbreviation escape_unit := Claimed.escape_unit.

(** The two passes of [escape] amount to one pass over the input. *)
Lemma escape_one_pass str : escape str = flat_map_units escape_unit str.
Proof.
  unfold LinariaStringifier.escape.
  induction str as [|a str IH]; [reflexivity|].
  cbn [replace_all flat_map_units]. rewrite replace_all_app, IH. f_equal.
  unfold Claimed.escape_unit.
  destruct (Ascii.eqb_spec a "\") as [->|Hb]; [reflexivity|].
  cbn [replace_all]. rewrite append_nil_r.
  destruct (Ascii.eqb a "`"); reflexivity.
Qed.

(** C1. A call of the wrapped sink without a node, or with a root node,
    reaches the underlying sink with its text unchanged. With any other
    node the text that reaches it is the input after replacing every
    backslash by two and then, in the result, every backtick by a
    backslash and a backtick. That is the same as replacing, in one pass
    over the input, each backslash by two and each backtick by backslash
    and backtick: an inserted backslash is not escaped again, and a
    backslash followed by a backtick becomes two backslashes followed by
    backslash and backtick. *)
Theorem wrappedBuilder_escapes (str : string) (type_ : option Boundary) (st : St) :
  wrappedBuilder str None type_ st = builder str None type_ st
  /\ (forall n, type n = NodeType.root ->
        wrappedBuilder str (Some n) type_ st = builder str (Some n) type_ st)
  /\ (forall n, type n <> NodeType.root ->
        wrappedBuilder str (Some n) type_ st =
        builder (replace_all "`" "\`" (replace_all "\" "\\" str)) (Some n) type_ st)
  /\ replace_all "`" "\`" (replace_all "\" "\\" str) = flat_map_units escape_unit str
  /\ escape "\`" = "\\\`".
Proof.
  repeat split.
  - intros n Hn. unfold LinariaStringifier.wrappedBuilder. now rewrite Hn.
  - intros n Hn. unfold LinariaStringifier.wrappedBuilder.
    destruct (type n); try reflexivity. congruence.
  - apply escape_one_pass.
Qed.

End Escaping.

(** C1 on a run: a backslash and a backtick sent with a comment node are
    escaped, and sent with a root node they are not. *)
Lemma wrappedBuilder_escapes_witness :
  LinariaStringifier.wrappedBuilder Sample.text_sink "\`"
    (Some (Sample.root_with [])) None "" = "\`"
  /\ LinariaStringifier.wrappedBuilder Sample.text_sink "\`"
    (Some (Sample.comment_node "" (Sample.root_with []))) None "" = "\\\`".
Proof.
  destruct (wrappedBuilder_escapes Sample.text_sink "\`" None "")
    as (_ & Hroot & Hother & Hpass & _).
  split.
  - rewrite (Hroot (Sample.root_with [])); reflexivity.
  - rewrite (Hother (Sample.comment_node "" (Sample.root_with []))).
    + rewrite Hpass. reflexivity.
    + discriminate.
Defined.

(** ** Substituting short placeholders *)

Section Substitution.

Variable shortPlaceholderText : string.
Variable expressions : option (list string).

Local Abbreviation substitute_token :=
  (LinariaStringifier.substitute_token shortPlaceholderText).
Local Abbreviation substitutePlaceholders :=
  (LinariaStringifier.substitutePlaceholders shortPlaceholderText).

Lemma truthy_expression_NaN es : LinariaStringifier.truthy_expression es NaN = None.
Proof. destruct es; reflexivity. Qed.

Lemma token_without_marker tok :
  includes tok shortPlaceholderText = false ->
  substitute_token expressions tok = tok.
Proof.
  intros H. unfold LinariaStringifier.substitute_token.
  rewrite split_not_included; [|intros ->; now rewrite includes_empty in H|exact H].
  simpl. now rewrite truthy_expression_NaN.
Qed.

(** What a token made of leading code units, the marker and decimal
    digits becomes. *)
Lemma token_marker_digits pre ds :
  starts_with_non_digit shortPlaceholderText = true ->
  first_unit_absent shortPlaceholderText pre = true ->
  ds <> "" -> all_digits ds = true ->
  substitute_token expressions (pre ++ shortPlaceholderText ++ ds) =
  match expressions with
  | Some es =>
      match element es (decimal ds) with
      | Some e => if truthy e then e else pre ++ shortPlaceholderText ++ ds
      | None => pre ++ shortPlaceholderText ++ ds
      end
  | None => pre ++ shortPlaceholderText ++ ds
  end.
Proof.
  intros Hm Hpre Hne Hds. unfold LinariaStringifier.substitute_token.
  rewrite (second_split_marker_digits _ _ _ Hm Hpre Hds).
  unfold LinariaStringifier.truthy_expression.
  destruct expressions as [es|]; [|reflexivity].
  rewrite (isNaN_Number_digits _ Hne Hds), (get_Number_digits _ _ Hne Hds). simpl.
  destruct (element es (decimal ds)) as [e|]; [|reflexivity].
  destruct (truthy e); reflexivity.
Qed.

Lemma substitutePlaceholders_fast_path s :
  includes s shortPlaceholderText = false -> substitutePlaceholders s expressions = s.
Proof.
  intros H. unfold LinariaStringifier.substitutePlaceholders. now rewrite H.
Qed.

Lemma substitutePlaceholders_slow_path s :
  includes s shortPlaceholderText = true ->
  substitutePlaceholders s expressions =
  join (map (substitute_token expressions) (split s " ")) " ".
Proof.
  intros H. unfold LinariaStringifier.substitutePlaceholders. now rewrite H.
Qed.

Lemma token_marker_digits_substituted pre ds es e :
  starts_with_non_digit shortPlaceholderText = true ->
  first_unit_absent shortPlaceholderText pre = true ->
  ds <> "" -> all_digits ds = true ->
  expressions = Some es -> element es (decimal ds) = Some e -> e <> "" ->
  substitute_token expressions (pre ++ shortPlaceholderText ++ ds) = e.
Proof.
  intros Hm Hpre Hne Hds Hes He Hnonempty.
  rewrite (token_marker_digits pre ds Hm Hpre Hne Hds), Hes, He.
  destruct e; [congruence | reflexivity].
Qed.

Lemma token_marker_digits_kept pre ds :
  starts_with_non_digit shortPlaceholderText = true ->
  first_unit_absent shortPlaceholderText pre = true ->
  ds <> "" -> all_digits ds = true ->
  (expressions = None \/
   exists es, expressions = Some es /\
     (element es (decimal ds) = None \/ element es (decimal ds) = Some "")) ->
  substitute_token expressions (pre ++ shortPlaceholderText ++ ds) =
  pre ++ shortPlaceholderText ++ ds.
Proof.
  intros Hm Hpre Hne Hds H.
  rewrite (token_marker_digits pre ds Hm Hpre Hne Hds).
  destruct H as [->|(es & -> & [->| ->])]; reflexivity.
Qed.

End Substitution.

Lemma includes_unit_long x marker :
  (2 <= String.length marker)%nat -> includes (String x "") marker = false.
Proof.
  destruct marker as [|c [|d m]]; simpl; lia.
Qed.

(** The specification's own example of a declaration value. *)
Lemma substitutePlaceholders_example marker :
  starts_with_non_digit marker = true ->
  occurs " " marker = false ->
  (2 <= String.length marker)%nat ->
  LinariaStringifier.substitutePlaceholders marker
    ("a " ++ marker ++ "0 b") (Some ["${x}"]) = "a ${x} b".
Proof.
  intros Hm Hsp Hlen.
  rewrite substitutePlaceholders_slow_path by (apply (includes_app "a " marker "0 b")).
  assert (Hsplit : split ("a " ++ marker ++ "0 b") " " = ["a"; marker ++ "0"; "b"]).
  { change ("a " ++ marker ++ "0 b") with ("a" ++ " " ++ marker ++ "0 b").
    rewrite (split_first " " "" "a") by reflexivity. f_equal.
    replace (marker ++ "0 b") with ((marker ++ "0") ++ " " ++ "b")
      by (now rewrite append_assoc).
    rewrite (split_first " " "" (marker ++ "0"))
      by (rewrite occurs_app, Hsp; reflexivity).
    reflexivity. }
  rewrite Hsplit. cbn [map].
  rewrite (token_without_marker marker (Some ["${x}"]) "a"),
          (token_without_marker marker (Some ["${x}"]) "b")
    by (now apply includes_unit_long).
  pose proof (token_marker_digits_substituted marker (Some ["${x}"])
                "" "0" ["${x}"] "${x}" Hm) as Htok.
  cbn [String.append] in Htok. rewrite Htok; try reflexivity; try discriminate.
  destruct marker; [discriminate | reflexivity].
Qed.

(** C2 as worded fails: a token with leading characters before the
    marker is replaced although it is not the marker followed by an
    index, and a marker-and-index token whose entry is present but empty
    is kept rather than replaced by the empty text. *)
Lemma substitutePlaceholders_as_worded_fails :
  LinariaStringifier.substitutePlaceholders Sample.shortPlaceholderText
    "a .pcss_lin0 b" (Some ["${x}"])
  <> Claimed.substitutePlaceholders Sample.shortPlaceholderText
    "a .pcss_lin0 b" (Some ["${x}"])
  /\ LinariaStringifier.substitutePlaceholders Sample.shortPlaceholderText
    "a pcss_lin0 b" (Some [""])
  <> Claimed.substitutePlaceholders Sample.shortPlaceholderText
    "a pcss_lin0 b" (Some [""]).
Proof. split; vm_compute; discriminate. Qed.

Lemma at_index_In xs i e : at_index xs i = Some e -> In e xs.
Proof.
  revert i. induction xs as [|x xs IH]; simpl; intros i H; [discriminate|].
  destruct (i =? 0); [left; congruence | right; eauto].
Qed.

(** Whatever a handler substitutes is a non-empty entry of the table. *)
Lemma truthy_expression_Some expressions index e :
  LinariaStringifier.truthy_expression expressions index = Some e ->
  exists es, expressions = Some es /\ get es index = Some e /\ In e es /\ e <> "".
Proof.
  unfold LinariaStringifier.truthy_expression.
  destruct expressions as [es|]; [|discriminate].
  destruct (isNaN index); [discriminate|]. simpl.
  destruct (get es index) as [e'|] eqn:E; [|discriminate].
  destruct e' as [|c e']; [discriminate|]. simpl. intros [= <-].
  exists es. repeat split; [exact E | | discriminate].
  unfold get in E. destruct (array_index index); [|discriminate].
  eapply at_index_In, E.
Qed.

(** C4 as worded fails: the marker and index are a proper substring of
    the token [xpcss_lin0], which has a leading [x], and the token is
    substituted all the same. *)
Lemma substitute_token_proper_substring :
  LinariaStringifier.substitute_token Sample.shortPlaceholderText
    (Some ["${x}"]) "xpcss_lin0" <> "xpcss_lin0".
Proof. vm_compute. discriminate. Qed.

(** ** The node handlers *)

Lemma strip_prefix_Some p s t : strip_prefix p s = Some t <-> s = p ++ t.
Proof.
  revert s. induction p as [|a p IH]; intros s; simpl.
  - split; congruence.
  - destruct s as [|b s]; [split; discriminate|].
    destruct (Ascii.eqb_spec a b) as [->|Hne].
    + rewrite IH. split; congruence.
    + split; [discriminate | congruence].
Qed.

Lemma truthy_nonempty s : truthy s = true <-> s <> "".
Proof. destruct s; simpl; split; congruence. Qed.

Section Handlers.

Context {St : Type}.
Variable placeholderText shortPlaceholderText : string.
Variable builder : string -> option Node -> option Boundary -> St -> St.
Variable super_comment : Node -> St -> St.
Variable super_document : Node -> St -> St.
Variable body : Node -> St -> St.
Variable super_raw : Node -> string -> option string -> string.
Variable super_rawValue : Node -> string -> string.

Local Abbreviation wrappedBuilder := (LinariaStringifier.wrappedBuilder builder).
Local Abbreviation comment_expression :=
  (LinariaStringifier.comment_expression placeholderText).
Local Abbreviation comment :=
  (LinariaStringifier.comment placeholderText builder super_comment).
Local Abbreviation raw := (LinariaStringifier.raw super_raw).
Local Abbreviation rawValue := (LinariaStringifier.rawValue super_rawValue).
Local Abbreviation decl_prop := (LinariaStringifier.decl_prop placeholderText).
Local Abbreviation decl_value :=
  (LinariaStringifier.decl_value shortPlaceholderText super_rawValue).
Local Abbreviation decl :=
  (LinariaStringifier.decl placeholderText shortPlaceholderText builder
     super_raw super_rawValue).
Local Abbreviation document := (LinariaStringifier.document builder super_document).
Local Abbreviation root := (LinariaStringifier.root builder body).

(** *** Comments *)

(** The pattern accepts exactly the marker, a colon and digits. *)
Lemma placeholderPattern_test_iff s :
  LinariaStringifier.placeholderPattern_test placeholderText s = true <->
  exists ds, s = placeholderText ++ ":" ++ ds /\ ds <> "" /\ all_digits ds = true.
Proof.
  unfold LinariaStringifier.placeholderPattern_test.
  destruct (strip_prefix (placeholderText ++ ":") s) as [ds|] eqn:E.
  - apply strip_prefix_Some in E. rewrite append_assoc in E.
    rewrite andb_true_iff, truthy_nonempty. split.
    + intros [Hne Hds]. now exists ds.
    + intros (ds' & Hs & Hne & Hds). rewrite Hs in E.
      apply String.app_inj in E. apply (String.app_inj ":") in E. now subst.
  - split; [discriminate|]. intros (ds & Hs & _).
    assert (H : strip_prefix (placeholderText ++ ":") s = Some ds)
      by (apply strip_prefix_Some; now rewrite append_assoc).
    congruence.
Qed.

(** The expression looked up for a comment that is a placeholder. *)
Lemma comment_expression_placeholder node ds :
  occurs ":" placeholderText = false ->
  text node = placeholderText ++ ":" ++ ds -> ds <> "" -> all_digits ds = true ->
  comment_expression node =
  match root_expressions node with
  | Some es =>
      match element es (decimal ds) with
      | Some e => if truthy e then Some e else None
      | None => None
      end
  | None => None
  end.
Proof.
  intros Hcolon Htext Hne Hds. unfold LinariaStringifier.comment_expression.
  assert (Htest : LinariaStringifier.placeholderPattern_test placeholderText (text node) = true)
    by (apply placeholderPattern_test_iff; now exists ds).
  rewrite Htest, Htext.
  rewrite (split_first ":" "" placeholderText ds Hcolon).
  rewrite split_not_included
    by (discriminate || (apply includes_all_digits; [reflexivity | assumption])).
  cbn [second]. unfold LinariaStringifier.truthy_expression.
  destruct (root_expressions node) as [es|]; [|reflexivity].
  now rewrite (isNaN_Number_digits _ Hne Hds), (get_Number_digits _ _ Hne Hds).
Qed.

(** A comment is replaced exactly when it is a placeholder whose index
    resolves to a non-empty entry. *)
Lemma comment_expression_iff node e :
  occurs ":" placeholderText = false ->
  comment_expression node = Some e <->
  exists ds es,
    text node = placeholderText ++ ":" ++ ds /\ ds <> "" /\ all_digits ds = true /\
    root_expressions node = Some es /\ element es (decimal ds) = Some e /\ e <> "".
Proof.
  intros Hcolon. split.
  - intros H.
    destruct (LinariaStringifier.placeholderPattern_test placeholderText (text node)) eqn:T.
    + apply placeholderPattern_test_iff in T as (ds & Htext & Hne & Hds).
      rewrite (comment_expression_placeholder node ds Hcolon Htext Hne Hds) in H.
      destruct (root_expressions node) as [es|]; [|discriminate].
      destruct (element es (decimal ds)) as [e'|] eqn:E; [|discriminate].
      destruct (truthy e') eqn:Te; [|discriminate]. injection H as <-.
      exists ds, es. repeat split; try assumption. now apply truthy_nonempty.
    + unfold LinariaStringifier.comment_expression in H. rewrite T in H. discriminate.
  - intros (ds & es & Htext & Hne & Hds & Hes & He & Hnonempty).
    rewrite (comment_expression_placeholder node ds Hcolon Htext Hne Hds), Hes, He.
    apply truthy_nonempty in Hnonempty. now rewrite Hnonempty.
Qed.

(** C5, amended. For a full marker that is a literal pattern without a
    colon in it, the comment handler emits the expression text alone, attributed to the comment,
    exactly when the comment's text is the full marker, a colon and
    digits, and the index they denote resolves to a non-empty entry of
    the root's expression table. In every other case it is the generic
    comment printing that runs: so for a comment "<marker>:5" against a
    table of two entries. *)
Theorem comment_placeholder (node : Node) (st : St) :
  literal_pattern placeholderText = true ->
  occurs ":" placeholderText = false ->
  (forall ds es e,
     text node = placeholderText ++ ":" ++ ds -> ds <> "" -> all_digits ds = true ->
     root_expressions node = Some es -> element es (decimal ds) = Some e -> e <> "" ->
     comment node st = wrappedBuilder e (Some node) None st)
  /\ ((~ exists ds es e,
         text node = placeholderText ++ ":" ++ ds /\ ds <> "" /\ all_digits ds = true /\
         root_expressions node = Some es /\ element es (decimal ds) = Some e /\ e <> "") ->
      comment node st = super_comment node st)
  /\ (forall a b,
        text node = placeholderText ++ ":5" -> root_expressions node = Some [a; b] ->
        comment node st = super_comment node st).
Proof.
  intros _ Hcolon.
  assert (Hother : (~ exists ds es e,
         text node = placeholderText ++ ":" ++ ds /\ ds <> "" /\ all_digits ds = true /\
         root_expressions node = Some es /\ element es (decimal ds) = Some e /\ e <> "") ->
      comment node st = super_comment node st).
  { intros Hno. unfold LinariaStringifier.comment.
    destruct (comment_expression node) as [e|] eqn:E; [|reflexivity].
    exfalso. apply Hno. apply (comment_expression_iff node e Hcolon) in E.
    destruct E as (ds & es & H). now exists ds, es, e. }
  split; [|split].
  - intros ds es e Htext Hne Hds Hes He Hnonempty. unfold LinariaStringifier.comment.
    replace (comment_expression node) with (Some e); [reflexivity|].
    symmetry. apply (comment_expression_iff node e Hcolon). now exists ds, es.
  - exact Hother.
  - intros a b Htext Hes. apply Hother. intros (ds & es & e & Htext' & _ & _ & Hes' & He & _).
    rewrite Htext in Htext'. apply String.app_inj in Htext'.
    injection Htext' as <-. rewrite Hes in Hes'. injection Hes' as <-.
    vm_compute in He. discriminate.
Qed.

End Handlers.

(** C5 on a run: the comment [pcss-lin:1] prints as the second
    expression, without delimiters. *)
Lemma comment_placeholder_witness :
  LinariaStringifier.comment Sample.placeholderText Sample.text_sink
    Sample.generic_comment
    (Sample.comment_node "pcss-lin:1" (Sample.root_with ["${a}"; "${b}"])) ""
  = "${b}"
  /\ LinariaStringifier.comment Sample.placeholderText Sample.text_sink
    Sample.generic_comment
    (Sample.comment_node "pcss-lin:5" (Sample.root_with ["${a}"; "${b}"])) ""
  = "/*pcss-lin:5*/".
Proof.
  split.
  - destruct (comment_placeholder Sample.placeholderText Sample.text_sink
                Sample.generic_comment
                (Sample.comment_node "pcss-lin:1" (Sample.root_with ["${a}"; "${b}"]))
                "" eq_refl eq_refl) as (Hsub & _ & _).
    rewrite (Hsub "1" ["${a}"; "${b}"] "${b}"); (reflexivity || discriminate).
  - destruct (comment_placeholder Sample.placeholderText Sample.text_sink
                Sample.generic_comment
                (Sample.comment_node "pcss-lin:5" (Sample.root_with ["${a}"; "${b}"]))
                "" eq_refl eq_refl) as (_ & _ & Hfive).
    rewrite (Hfive "${a}" "${b}"); reflexivity.
Defined.

(** C5 as worded fails: the index of [pcss-lin:0] resolves to an entry
    that is present but empty, and the comment is printed by the generic
    printer, delimiters and text, instead of being replaced by the empty
    expression text. *)
Lemma comment_present_empty_entry :
  LinariaStringifier.comment Sample.placeholderText Sample.text_sink
    Sample.generic_comment
    (Sample.comment_node "pcss-lin:0" (Sample.root_with [""])) ""
  <> Claimed.comment Sample.placeholderText Sample.text_sink
    Sample.generic_comment
    (Sample.comment_node "pcss-lin:0" (Sample.root_with [""])) "".
Proof. vm_compute. discriminate. Qed.

(** ** Raw slots and raw values *)

Section RawSlots.

Variable super_raw : Node -> string -> option string -> string.
Variable super_rawValue : Node -> string -> string.

Local Abbreviation raw := (LinariaStringifier.raw super_raw).
Local Abbreviation rawValue := (LinariaStringifier.rawValue super_rawValue).

Lemma raw_override_other node own generic override :
  own <> generic -> LinariaStringifier.raw_override node own generic override = None.
Proof.
  intros H. unfold LinariaStringifier.raw_override.
  now destruct (String.eqb_spec own generic).
Qed.

Lemma raw_override_own node own override :
  LinariaStringifier.raw_override node own own override =
  match truthy_slot node own with
  | Some _ => truthy_slot node override
  | None => None
  end.
Proof. unfold LinariaStringifier.raw_override. now rewrite String.eqb_refl. Qed.

(** C6, amended. The raw-slot resolution returns the override exactly
    when the slot asked for is [before], [after] or [between], the
    node's generic raw value for it is non-empty, and the override that
    goes with it ([linariaBefore], [linariaAfter], [linariaBetween]) is
    non-empty too. In every other case it is the generic resolution that
    answers; so when the generic value is empty or missing although an
    override exists. *)
Theorem raw_override_resolution (node : Node) (own : string) (detect : option string) :
  raw node own detect =
    match Claimed.override_slot own with
    | Some name =>
        match truthy_slot node own, truthy_slot node name with
        | Some _, Some override => override
        | _, _ => super_raw node own detect
        end
    | None => super_raw node own detect
    end
  /\ (forall name generic override,
        Claimed.override_slot own = Some name ->
        raws_slot node own = Some generic -> generic <> "" ->
        raws_slot node name = Some override -> override <> "" ->
        raw node own detect = override)
  /\ (forall name,
        Claimed.override_slot own = Some name ->
        raws_slot node own = Some "" \/ raws_slot node own = None ->
        raw node own detect = super_raw node own detect).
Proof.
  assert (Heq : raw node own detect =
    match Claimed.override_slot own with
    | Some name =>
        match truthy_slot node own, truthy_slot node name with
        | Some _, Some override => override
        | _, _ => super_raw node own detect
        end
    | None => super_raw node own detect
    end).
  { unfold LinariaStringifier.raw, Claimed.override_slot.
    destruct (String.eqb_spec own "before") as [->|Hb].
    { rewrite raw_override_own.
      destruct (truthy_slot node "before"); [|reflexivity].
      destruct (truthy_slot node "linariaBefore"); reflexivity. }
    rewrite (raw_override_other _ _ _ _ Hb).
    destruct (String.eqb_spec own "after") as [->|Ha].
    { rewrite raw_override_own.
      destruct (truthy_slot node "after"); [|reflexivity].
      destruct (truthy_slot node "linariaAfter"); reflexivity. }
    rewrite (raw_override_other _ _ _ _ Ha).
    destruct (String.eqb_spec own "between") as [->|Hw].
    { rewrite raw_override_own.
      destruct (truthy_slot node "between"); [|reflexivity].
      destruct (truthy_slot node "linariaBetween"); reflexivity. }
    now rewrite (raw_override_other _ _ _ _ Hw). }
  split; [exact Heq|split].
  - intros name generic override Hname Hg Hgne Ho Hone. rewrite Heq, Hname.
    unfold truthy_slot. rewrite Hg, Ho.
    apply truthy_nonempty in Hgne, Hone. now rewrite Hgne, Hone.
  - intros name Hname Hg. rewrite Heq, Hname. unfold truthy_slot.
    destruct Hg as [-> | ->]; reflexivity.
Qed.

Local Abbreviation rawValue_in := (LinariaStringifier.rawValue_in super_rawValue).

Lemma string_of_units_units s : string_of_units (units s) = Some s.
Proof.
  induction s as [|c s IH]; [reflexivity|]. cbn [units string_of_units].
  pose proof (N_ascii_bounded c) as Hc. apply N.ltb_lt in Hc.
  now rewrite Hc, IH, ascii_N_embedding.
Qed.

Lemma string_of_units_Some us s : string_of_units us = Some s -> us = units s.
Proof.
  revert s. induction us as [|u us IH]; intros s; cbn [string_of_units].
  - now intros [= <-].
  - destruct (N.ltb_spec u 256); [|discriminate].
    destruct (string_of_units us) as [t|]; [|discriminate].
    intros [= <-]. cbn [units]. now rewrite N_ascii_embedding, (IH t eq_refl).
Qed.

Lemma own_units_slot (node : Node) name :
  name <> "linariaTemplateExpressions" ->
  own_units (raws node) (units name) = RawText <$> raws_slot node name.
Proof.
  intros Hne. unfold own_units, own_property, raws_slot.
  rewrite string_of_units_units.
  now destruct (String.eqb_spec name "linariaTemplateExpressions").
Qed.

Lemma linariaProp_unit c rest :
  LinariaStringifier.linariaProp (String c rest) =
  (units "linaria" ++ upper_unit c ++ units rest)%list.
Proof.
  unfold LinariaStringifier.linariaProp. cbn [toUpperCase].
  now rewrite app_nil_r.
Qed.

(** C7. The raw-value resolution looks under the name made of the prefix
    [linaria] and the property name with its first character in upper
    case ([value] gives [linariaValue]). When the node's raws have that
    name, its value is returned in text form, whatever it is: a string
    as it stands, the empty string included, a list of strings joined by
    commas, and [undefined], [null], [false], [true], [0] or [NaN] as
    their names. Only when the raws do not have the name does the
    generic printer compute the raw value. The upper case is that of the
    first code unit alone: a letter [a]..[z] or U+00E0..U+00FE (without
    U+00F7) moves down by 32, U+00B5 becomes U+039C, U+00FF becomes
    U+0178, U+00DF becomes [SS], and any other code unit stays. A name
    with a code unit that is not below 256 is the name of no slot of the
    modelled raws. *)
Theorem rawValue_override
    (node : Node) (prop : string) (own : list N -> option RawValue) :
  (forall v,
     own (LinariaStringifier.linariaProp prop) = Some v ->
     rawValue_in own node prop = text_form v)
  /\ (own (LinariaStringifier.linariaProp prop) = None ->
     rawValue_in own node prop = super_rawValue node prop)
  /\ rawValue node prop = rawValue_in (own_units (raws node)) node prop
  /\ ((forall s, own (LinariaStringifier.linariaProp prop) = Some (RawText s) ->
         rawValue_in own node prop = s)
     /\ (forall xs, own (LinariaStringifier.linariaProp prop) = Some (RawTexts xs) ->
           rawValue_in own node prop = join xs ",")
     /\ (own (LinariaStringifier.linariaProp prop) = Some (RawPlain plain_undefined) ->
           rawValue_in own node prop = "undefined")
     /\ (own (LinariaStringifier.linariaProp prop) = Some (RawPlain plain_null) ->
           rawValue_in own node prop = "null")
     /\ (own (LinariaStringifier.linariaProp prop) = Some (RawPlain plain_false) ->
           rawValue_in own node prop = "false")
     /\ (own (LinariaStringifier.linariaProp prop) = Some (RawPlain plain_true) ->
           rawValue_in own node prop = "true")
     /\ (own (LinariaStringifier.linariaProp prop) = Some (RawPlain plain_zero) ->
           rawValue_in own node prop = "0")
     /\ (own (LinariaStringifier.linariaProp prop) = Some (RawPlain plain_NaN) ->
           rawValue_in own node prop = "NaN"))
  /\ (forall name s,
     LinariaStringifier.linariaProp prop = units name ->
     name <> "linariaTemplateExpressions" ->
     raws_slot node name = Some s -> rawValue node prop = s)
  /\ (forall name,
     LinariaStringifier.linariaProp prop = units name ->
     name <> "linariaTemplateExpressions" ->
     raws_slot node name = None -> rawValue node prop = super_rawValue node prop)
  /\ ((forall name, LinariaStringifier.linariaProp prop <> units name) ->
     rawValue node prop = super_rawValue node prop)
  /\ (raws_slot node "linariaValue" = Some "" -> rawValue node "value" = "")
  /\ (forall es,
     linariaTemplateExpressions (raws node) = Some es ->
     rawValue node "templateExpressions" = join es ",")
  /\ LinariaStringifier.linariaProp "value" = units "linariaValue"
  /\ LinariaStringifier.linariaProp "" = units "linariaundefined"
  /\ (forall c rest,
     (97 <= N_of_ascii c <= 122)%N ->
     LinariaStringifier.linariaProp (String c rest) =
     (units "linaria" ++ (N_of_ascii c - 32)%N :: units rest)%list)
  /\ (forall c rest,
     (224 <= N_of_ascii c <= 254)%N -> N_of_ascii c <> 247%N ->
     LinariaStringifier.linariaProp (String c rest) =
     (units "linaria" ++ (N_of_ascii c - 32)%N :: units rest)%list)
  /\ (forall c rest,
     N_of_ascii c = 223%N ->
     LinariaStringifier.linariaProp (String c rest)
     = (units "linariaSS" ++ units rest)%list)
  /\ (forall c rest,
     N_of_ascii c = 181%N ->
     LinariaStringifier.linariaProp (String c rest) =
     (units "linaria" ++ 924%N :: units rest)%list)
  /\ (forall c rest,
     N_of_ascii c = 255%N ->
     LinariaStringifier.linariaProp (String c rest) =
     (units "linaria" ++ 376%N :: units rest)%list)
  /\ (forall c rest,
     (N_of_ascii c < 97 \/ 122 < N_of_ascii c < 224 \/ N_of_ascii c = 247)%N ->
     N_of_ascii c <> 181%N -> N_of_ascii c <> 223%N ->
     LinariaStringifier.linariaProp (String c rest) = units ("linaria" ++ String c rest)).
Proof.
  assert (Hsome : forall v,
            own (LinariaStringifier.linariaProp prop) = Some v ->
            rawValue_in own node prop = text_form v).
  { intros v Hv. unfold LinariaStringifier.rawValue_in. now rewrite Hv. }
  split; [exact Hsome|].
  split; [intros Ho; unfold LinariaStringifier.rawValue_in; now rewrite Ho|].
  split; [reflexivity|].
  split.
  { repeat split; intros; now rewrite (Hsome _ ltac:(eassumption)). }
  split.
  { intros name s Hn Hne Hs. unfold LinariaStringifier.rawValue, LinariaStringifier.rawValue_in.
    now rewrite Hn, (own_units_slot node name Hne), Hs. }
  split.
  { intros name Hn Hne Hs. unfold LinariaStringifier.rawValue, LinariaStringifier.rawValue_in.
    now rewrite Hn, (own_units_slot node name Hne), Hs. }
  split.
  { intros Hn. unfold LinariaStringifier.rawValue, LinariaStringifier.rawValue_in, own_units.
    destruct (string_of_units (LinariaStringifier.linariaProp prop)) as [key|] eqn:E;
      [|reflexivity].
    apply string_of_units_Some in E. now apply Hn in E. }
  split.
  { intros Hs. unfold LinariaStringifier.rawValue, LinariaStringifier.rawValue_in.
    change (LinariaStringifier.linariaProp "value") with (units "linariaValue").
    now rewrite (own_units_slot node "linariaValue" ltac:(discriminate)), Hs. }
  split.
  { intros es Hes. unfold LinariaStringifier.rawValue, LinariaStringifier.rawValue_in.
    change (LinariaStringifier.linariaProp "templateExpressions")
      with (units "linariaTemplateExpressions").
    unfold own_units. rewrite string_of_units_units. unfold own_property.
    rewrite String.eqb_refl, Hes. reflexivity. }
  split; [reflexivity|]. split; [reflexivity|].
  split.
  { intros c rest [Hlo Hhi]. rewrite linariaProp_unit. unfold upper_unit.
    apply N.leb_le in Hlo, Hhi. now rewrite Hlo, Hhi. }
  split.
  { intros c rest [Hlo Hhi] Hne. rewrite linariaProp_unit. unfold upper_unit.
    destruct (N.leb_spec 97 (N_of_ascii c)); [|lia].
    destruct (N.leb_spec (N_of_ascii c) 122); [lia|]. cbn [andb].
    destruct (N.eqb_spec (N_of_ascii c) 181); [lia|].
    destruct (N.eqb_spec (N_of_ascii c) 255); [lia|].
    destruct (N.eqb_spec (N_of_ascii c) 223); [lia|].
    destruct (N.leb_spec 224 (N_of_ascii c)); [|lia].
    destruct (N.leb_spec (N_of_ascii c) 254); [|lia].
    destruct (N.eqb_spec (N_of_ascii c) 247); [contradiction|]. reflexivity. }
  split.
  { intros c rest Hc. rewrite linariaProp_unit. unfold upper_unit. now rewrite Hc. }
  split.
  { intros c rest Hc. rewrite linariaProp_unit. unfold upper_unit. now rewrite Hc. }
  split.
  { intros c rest Hc. rewrite linariaProp_unit. unfold upper_unit. now rewrite Hc. }
  intros c rest Hc H181 H223. rewrite linariaProp_unit. unfold upper_unit.
  change (units ("linaria" ++ String c rest))
    with (units "linaria" ++ [N_of_ascii c] ++ units rest)%list.
  destruct (N.leb_spec 97 (N_of_ascii c)); cbn [andb].
  - destruct (N.leb_spec (N_of_ascii c) 122); [lia|]. cbn [andb].
    destruct (N.eqb_spec (N_of_ascii c) 181); [contradiction|].
    destruct (N.eqb_spec (N_of_ascii c) 255); [lia|].
    destruct (N.eqb_spec (N_of_ascii c) 223); [contradiction|].
    destruct (N.leb_spec 224 (N_of_ascii c)); [|reflexivity].
    destruct (N.leb_spec (N_of_ascii c) 254); [|lia].
    destruct (N.eqb_spec (N_of_ascii c) 247); [reflexivity | lia].
  - destruct (N.eqb_spec (N_of_ascii c) 181); [lia|].
    destruct (N.eqb_spec (N_of_ascii c) 255); [lia|].
    destruct (N.eqb_spec (N_of_ascii c) 223); [lia|].
    destruct (N.leb_spec 224 (N_of_ascii c)); [lia | reflexivity].
Qed.

End RawSlots.

(** C6 on a run: with [before] the one space and [linariaBefore] a line
    break and two spaces, [before] resolves to the override; with an
    empty [before] the generic resolution answers. *)
Lemma raw_override_resolution_witness :
  LinariaStringifier.raw Sample.generic_raw
    (Sample.decl_with_before " " Sample.line_break_indent (Sample.root_with [])) "before" None
  = Sample.line_break_indent
  /\ LinariaStringifier.raw Sample.generic_raw
    (Sample.decl_with_before "" Sample.line_break_indent (Sample.root_with [])) "before" None
  = "".
Proof.
  split.
  - destruct (raw_override_resolution Sample.generic_raw
                (Sample.decl_with_before " " Sample.line_break_indent (Sample.root_with []))
                "before" None)
      as (_ & Hoverride & _).
    apply (Hoverride "linariaBefore" " "); (reflexivity || discriminate).
  - destruct (raw_override_resolution Sample.generic_raw
                (Sample.decl_with_before "" Sample.line_break_indent (Sample.root_with []))
                "before" None)
      as (_ & _ & Hgeneric).
    rewrite (Hgeneric "linariaBefore"); [reflexivity | reflexivity | left; reflexivity].
Defined.

(** C6 as worded fails: [before] is non-empty and the override
    [linariaBefore] is present but empty, and the resolution goes to the
    generic printer instead of returning the override. *)
Lemma raw_present_empty_override :
  LinariaStringifier.raw Sample.generic_raw
    (Sample.decl_with_before " " "" (Sample.root_with [])) "before" None
  <> Claimed.raw Sample.generic_raw
    (Sample.decl_with_before " " "" (Sample.root_with [])) "before" None.
Proof. vm_compute. discriminate. Qed.

(** C7 on a run: an empty [linariaValue] is returned as the raw value,
    without it the generic printer answers, and a slot holding [false]
    is returned as the text [false]. *)
Lemma rawValue_override_witness :
  LinariaStringifier.rawValue Sample.generic_rawValue
    (Sample.decl_node (<["linariaValue" := ""]> ∅) "color" "red" false
       (Sample.root_with [])) "value" = ""
  /\ LinariaStringifier.rawValue Sample.generic_rawValue
    (Sample.decl_node ∅ "color" "red" false (Sample.root_with [])) "value" = "red"
  /\ LinariaStringifier.rawValue_in Sample.generic_rawValue
    (fun _ => Some (RawPlain plain_false))
    (Sample.decl_node ∅ "color" "red" false (Sample.root_with [])) "value" = "false".
Proof.
  split; [|split].
  - destruct (rawValue_override Sample.generic_rawValue
                (Sample.decl_node (<["linariaValue" := ""]> ∅) "color" "red" false
                   (Sample.root_with [])) "value" (fun _ => None))
      as (_ & _ & _ & _ & _ & _ & _ & Hempty & _).
    apply Hempty. reflexivity.
  - destruct (rawValue_override Sample.generic_rawValue
                (Sample.decl_node ∅ "color" "red" false (Sample.root_with [])) "value"
                (fun _ => None))
      as (_ & _ & _ & _ & _ & Hnone & _).
    rewrite (Hnone "linariaValue"); [reflexivity | reflexivity | discriminate | reflexivity].
  - destruct (rawValue_override Sample.generic_rawValue
                (Sample.decl_node ∅ "color" "red" false (Sample.root_with [])) "value"
                (fun _ => Some (RawPlain plain_false)))
      as (_ & _ & _ & (_ & _ & _ & _ & Hfalse & _) & _).
    apply Hfalse. reflexivity.
Defined.

(** ** Declarations *)

Section Declarations.

Context {St : Type}.
Variable placeholderText shortPlaceholderText : string.
Variable builder : string -> option Node -> option Boundary -> St -> St.
Variable super_comment : Node -> St -> St.
Variable super_raw : Node -> string -> option string -> string.
Variable super_rawValue : Node -> string -> string.

Local Abbreviation wrappedBuilder := (LinariaStringifier.wrappedBuilder builder).
Local Abbreviation comment :=
  (LinariaStringifier.comment placeholderText builder super_comment).
Local Abbreviation raw := (LinariaStringifier.raw super_raw).
Local Abbreviation rawValue := (LinariaStringifier.rawValue super_rawValue).
Local Abbreviation decl_prop := (LinariaStringifier.decl_prop placeholderText).
Local Abbreviation decl_value :=
  (LinariaStringifier.decl_value shortPlaceholderText super_rawValue).
Local Abbreviation decl :=
  (LinariaStringifier.decl placeholderText shortPlaceholderText builder
     super_raw super_rawValue).
Local Abbreviation substitute_token :=
  (LinariaStringifier.substitute_token shortPlaceholderText).
Local Abbreviation substitutePlaceholders :=
  (LinariaStringifier.substitutePlaceholders shortPlaceholderText).

(** The test before the call repeats the routine's own fast path. *)
Lemma decl_value_substituted node :
  decl_value node = substitutePlaceholders (rawValue node "value") (root_expressions node).
Proof.
  unfold LinariaStringifier.decl_value, LinariaStringifier.substitutePlaceholders.
  now destruct (includes (rawValue node "value") shortPlaceholderText).
Qed.

Lemma decl_prop_without_marker node :
  includes (prop node) placeholderText = false -> decl_prop node = prop node.
Proof. intros H. unfold LinariaStringifier.decl_prop. now rewrite H. Qed.

(** The name printed for a property made of leading code units, the
    marker and decimal digits. *)
Lemma decl_prop_marker_digits node pre ds :
  starts_with_non_digit placeholderText = true ->
  first_unit_absent placeholderText pre = true ->
  prop node = pre ++ placeholderText ++ ds -> ds <> "" -> all_digits ds = true ->
  decl_prop node =
  match root_expressions node with
  | Some es =>
      match element es (decimal ds) with
      | Some e => if truthy e then e else prop node
      | None => prop node
      end
  | None => prop node
  end.
Proof.
  intros Hm Hpre Hprop Hne Hds. unfold LinariaStringifier.decl_prop.
  rewrite Hprop, includes_app, (second_split_marker_digits _ _ _ Hm Hpre Hds).
  unfold LinariaStringifier.truthy_expression.
  destruct (root_expressions node) as [es|]; [|reflexivity].
  rewrite (isNaN_Number_digits _ Hne Hds), (get_Number_digits _ _ Hne Hds). simpl.
  destruct (element es (decimal ds)) as [e|]; [|reflexivity].
  destruct (truthy e); reflexivity.
Qed.

(** C3, amended. The declaration handler emits one fragment, attributed
    to the declaration: the property name after substitution, the
    resolved [between] raw and the raw value after substitution, in that
    order; then, for an important declaration, the captured raw
    [important] text when it is present and non-empty and the default
    " !important" otherwise; then a semicolon exactly when the flag
    asks for one. *)
Theorem decl_fragment (node : Node) (semicolon : bool) (st : St) :
  decl node semicolon st =
    wrappedBuilder
      (decl_prop node ++ raw node "between" (Some "colon") ++ decl_value node
       ++ (if important node
           then match raws_slot node "important" with
                | Some s => if truthy s then s else " !important"
                | None => " !important"
                end
           else "")
       ++ (if semicolon then ";" else ""))
      (Some node) None st
  /\ decl_value node =
       substitutePlaceholders (rawValue node "value") (root_expressions node)
  /\ (includes (prop node) placeholderText = false -> decl_prop node = prop node)
  /\ (forall pre ds es e,
        starts_with_non_digit placeholderText = true ->
        first_unit_absent placeholderText pre = true ->
        prop node = pre ++ placeholderText ++ ds -> ds <> "" -> all_digits ds = true ->
        root_expressions node = Some es -> element es (decimal ds) = Some e -> e <> "" ->
        decl_prop node = e).
Proof.
  split; [|split; [|split]].
  - unfold LinariaStringifier.decl, LinariaStringifier.important_text, truthy_slot.
    f_equal.
    destruct (important node), semicolon;
      rewrite ?append_assoc, ?append_nil_r; try reflexivity;
      destruct (raws_slot node "important") as [s|]; try reflexivity;
      destruct (truthy s); reflexivity.
  - apply decl_value_substituted.
  - apply decl_prop_without_marker.
  - intros pre ds es e Hm Hpre Hprop Hne Hds Hes He Hnonempty.
    rewrite (decl_prop_marker_digits node pre ds Hm Hpre Hprop Hne Hds), Hes, He.
    apply truthy_nonempty in Hnonempty. now rewrite Hnonempty.
Qed.

(** Nothing is substituted from a table whose entries are all empty. *)
Lemma truthy_expression_all_empty es index :
  (forall e, In e es -> e = "") ->
  LinariaStringifier.truthy_expression (Some es) index = None.
Proof.
  intros Hall.
  destruct (LinariaStringifier.truthy_expression (Some es) index) as [e|] eqn:E;
    [|reflexivity].
  apply truthy_expression_Some in E as (es' & [= <-] & _ & Hin & Hne).
  now apply Hall in Hin.
Qed.

Lemma substitutePlaceholders_all_empty s es :
  (forall e, In e es -> e = "") -> substitutePlaceholders s (Some es) = s.
Proof.
  intros Hall. unfold LinariaStringifier.substitutePlaceholders.
  destruct (includes s shortPlaceholderText); [|reflexivity]. simpl.
  rewrite map_ext with (g := fun tok => tok).
  - rewrite map_id. apply join_split_space.
  - intros tok. unfold LinariaStringifier.substitute_token.
    now rewrite truthy_expression_all_empty.
Qed.

(** C10. A placeholder whose index names an entry that is the empty
    string is not substituted, on any of the paths. A token of the
    substitution routine made of the short marker and such an index is
    kept, and the routine returns its input when every entry of the
    table is empty; so does the value of a declaration. A comment that
    is the full marker, a colon and such an index is printed by the
    generic printer. A property name made of the full marker and such an
    index is printed as it stands. *)
Theorem empty_expression_not_substituted (node : Node) (st : St) :
  (forall pre ds es,
     starts_with_non_digit shortPlaceholderText = true ->
     first_unit_absent shortPlaceholderText pre = true ->
     ds <> "" -> all_digits ds = true -> element es (decimal ds) = Some "" ->
     substitute_token (Some es) (pre ++ shortPlaceholderText ++ ds) =
     pre ++ shortPlaceholderText ++ ds)
  /\ (forall s es,
     (forall e, In e es -> e = "") -> substitutePlaceholders s (Some es) = s)
  /\ (forall es,
     root_expressions node = Some es -> (forall e, In e es -> e = "") ->
     decl_value node = rawValue node "value")
  /\ (forall ds es,
     literal_pattern placeholderText = true ->
     occurs ":" placeholderText = false ->
     text node = placeholderText ++ ":" ++ ds -> ds <> "" -> all_digits ds = true ->
     root_expressions node = Some es -> element es (decimal ds) = Some "" ->
     comment node st = super_comment node st)
  /\ (forall pre ds es,
     starts_with_non_digit placeholderText = true ->
     first_unit_absent placeholderText pre = true ->
     prop node = pre ++ placeholderText ++ ds -> ds <> "" -> all_digits ds = true ->
     root_expressions node = Some es -> element es (decimal ds) = Some "" ->
     decl_prop node = prop node).
Proof.
  split; [|split; [|split; [|split]]].
  - intros pre ds es Hm Hpre Hne Hds He.
    apply token_marker_digits_kept; try assumption. right. exists es. auto.
  - apply substitutePlaceholders_all_empty.
  - intros es Hes Hall. rewrite decl_value_substituted, Hes.
    now apply substitutePlaceholders_all_empty.
  - intros ds es _ Hcolon Htext Hne Hds Hes He. unfold LinariaStringifier.comment.
    now rewrite (comment_expression_placeholder placeholderText node ds Hcolon Htext Hne Hds),
      Hes, He.
  - intros pre ds es Hm Hpre Hprop Hne Hds Hes He.
    now rewrite (decl_prop_marker_digits node pre ds Hm Hpre Hprop Hne Hds), Hes, He.
Qed.

End Declarations.

(** C3 on a run: a declaration with a placeholder for its name and one
    in its value, a captured [important] text and a semicolon. *)
Lemma decl_fragment_witness :
  LinariaStringifier.decl Sample.placeholderText Sample.shortPlaceholderText
    Sample.text_sink Sample.generic_raw Sample.generic_rawValue
    (Sample.decl_node (<["between" := ": "]> (<["important" := "!important"]> ∅))
       "--pcss-lin1" "a pcss_lin0 b" true (Sample.root_with ["${x}"; "${y}"]))
    true ""
  = "${y}: a ${x} b!important;".
Proof.
  destruct (decl_fragment Sample.placeholderText Sample.shortPlaceholderText
              Sample.text_sink Sample.generic_raw Sample.generic_rawValue
              (Sample.decl_node (<["between" := ": "]> (<["important" := "!important"]> ∅))
                 "--pcss-lin1" "a pcss_lin0 b" true (Sample.root_with ["${x}"; "${y}"]))
              true "") as (Hdecl & _ & _ & Hprop).
  rewrite Hdecl.
  rewrite (Hprop "--" "1" ["${x}"; "${y}"] "${y}"); (reflexivity || discriminate).
Defined.

(** C3 as worded fails: the captured [important] text is present but
    empty, and the default " !important" is appended instead of it. *)
Lemma decl_present_empty_important :
  LinariaStringifier.decl Sample.placeholderText Sample.shortPlaceholderText
    Sample.text_sink Sample.generic_raw Sample.generic_rawValue
    (Sample.decl_node (<["between" := ": "]> (<["important" := ""]> ∅))
       "color" "red" true (Sample.root_with [])) true ""
  <> Claimed.decl Sample.placeholderText Sample.shortPlaceholderText
    Sample.text_sink Sample.generic_raw Sample.generic_rawValue
    (Sample.decl_node (<["between" := ": "]> (<["important" := ""]> ∅))
       "color" "red" true (Sample.root_with [])) true "".
Proof. vm_compute. discriminate. Qed.

(** C10 on a run: with the one expression empty, the token, the value,
    the comment and the property name all keep their placeholder. *)
Lemma empty_expression_not_substituted_witness :
  LinariaStringifier.substitute_token Sample.shortPlaceholderText (Some [""]) "pcss_lin0"
  = "pcss_lin0"
  /\ LinariaStringifier.substitutePlaceholders Sample.shortPlaceholderText
       "a pcss_lin0 b" (Some [""]) = "a pcss_lin0 b"
  /\ LinariaStringifier.comment Sample.placeholderText Sample.text_sink
       Sample.generic_comment
       (Sample.comment_node "pcss-lin:0" (Sample.root_with [""])) ""
     = "/*pcss-lin:0*/"
  /\ LinariaStringifier.decl_prop Sample.placeholderText
       (Sample.decl_node ∅ "--pcss-lin0" "red" false (Sample.root_with [""]))
     = "--pcss-lin0".
Proof.
  split; [|split; [|split]].
  - destruct (empty_expression_not_substituted Sample.placeholderText
                Sample.shortPlaceholderText Sample.text_sink Sample.generic_comment
                Sample.generic_rawValue
                (Sample.comment_node "pcss-lin:0" (Sample.root_with [""])) "")
      as (Htok & _).
    apply (Htok "" "0" [""]); (reflexivity || discriminate).
  - destruct (empty_expression_not_substituted Sample.placeholderText
                Sample.shortPlaceholderText Sample.text_sink Sample.generic_comment
                Sample.generic_rawValue
                (Sample.comment_node "pcss-lin:0" (Sample.root_with [""])) "")
      as (_ & Hall & _).
    apply Hall. intros e [<-|[]]. reflexivity.
  - destruct (empty_expression_not_substituted Sample.placeholderText
                Sample.shortPlaceholderText Sample.text_sink Sample.generic_comment
                Sample.generic_rawValue
                (Sample.comment_node "pcss-lin:0" (Sample.root_with [""])) "")
      as (_ & _ & _ & Hcomment & _).
    rewrite (Hcomment "0" [""]); (reflexivity || discriminate).
  - destruct (empty_expression_not_substituted Sample.placeholderText
                Sample.shortPlaceholderText Sample.text_sink Sample.generic_comment
                Sample.generic_rawValue
                (Sample.decl_node ∅ "--pcss-lin0" "red" false (Sample.root_with [""])) "")
      as (_ & _ & _ & _ & Hprop).
    rewrite (Hprop "--" "0" [""]); (reflexivity || discriminate).
Defined.

(** ** Documents and roots *)

Section Containers.

Context {St : Type}.
Variable builder : string -> option Node -> option Boundary -> St -> St.
Variable super_document : Node -> St -> St.
Variable body : Node -> St -> St.

Local Abbreviation wrappedBuilder := (LinariaStringifier.wrappedBuilder builder).
Local Abbreviation document := (LinariaStringifier.document builder super_document).
Local Abbreviation root := (LinariaStringifier.root builder body).

(** C9. For a document without children the handler emits the input text
    captured at parse time as it stands, and an empty fragment when there
    is none; a captured text that is empty is emitted as the empty
    fragment too. The fragment carries no node, so it reaches the sink
    unescaped. A document with a child is left to the generic document
    printing. *)
Theorem document_without_children (node : Node) (st : St) :
  (forall css,
     nodes node = [] -> source_input_css node = Some css ->
     document node st = builder css None None st)
  /\ (nodes node = [] -> source_input_css node = None ->
      document node st = builder "" None None st)
  /\ (nodes node = [] -> source_input_css node = Some "" ->
      document node st = builder "" None None st)
  /\ (nodes node <> [] -> document node st = super_document node st).
Proof.
  unfold LinariaStringifier.document. repeat split.
  - intros css -> ->. reflexivity.
  - intros -> ->. reflexivity.
  - intros -> ->. reflexivity.
  - destruct (nodes node); [congruence | reflexivity].
Qed.

(** C8. The root handler emits the [codeBefore] raw value, or the empty
    string when there is none, as the start fragment of the root; then
    the generic walk over the body runs; then comes the trailing [after]
    text, without a node; last comes the [codeAfter] raw value, or the
    empty string, as the end fragment of the root. The trailing text is
    the [linariaAfter] override whenever the override is present, even
    over a generic [after], and the generic [after] raw value when there
    is no override. A trailing text that is empty or missing is not sent
    to the sink; for a sink on which an empty fragment without a node
    changes nothing, that is the same as sending it. *)
Theorem root_fragments (node : Node) (st : St) :
  let after_body :=
    body node
      (wrappedBuilder (default "" (raws_slot node "codeBefore"))
         (Some node) (Some boundary_start) st) in
  (forall override,
     raws_slot node "linariaAfter" = Some override -> override <> "" ->
     root node st =
     wrappedBuilder (default "" (raws_slot node "codeAfter")) (Some node) (Some boundary_end)
       (wrappedBuilder override None None after_body))
  /\ (raws_slot node "linariaAfter" = Some "" ->
     root node st =
     wrappedBuilder (default "" (raws_slot node "codeAfter")) (Some node) (Some boundary_end)
       after_body)
  /\ (forall after,
     raws_slot node "linariaAfter" = None ->
     raws_slot node "after" = Some after -> after <> "" ->
     root node st =
     wrappedBuilder (default "" (raws_slot node "codeAfter")) (Some node) (Some boundary_end)
       (wrappedBuilder after None None after_body))
  /\ (raws_slot node "linariaAfter" = None ->
     raws_slot node "after" = None \/ raws_slot node "after" = Some "" ->
     root node st =
     wrappedBuilder (default "" (raws_slot node "codeAfter")) (Some node) (Some boundary_end)
       after_body)
  /\ ((forall st', builder "" None None st' = st') ->
     root node st =
     wrappedBuilder (default "" (raws_slot node "codeAfter")) (Some node) (Some boundary_end)
       (wrappedBuilder
          (default "" (match raws_slot node "linariaAfter" with
                       | Some override => Some override
                       | None => raws_slot node "after"
                       end))
          None None after_body))
  /\ (forall str type_ st',
     type node = NodeType.root ->
     wrappedBuilder str (Some node) type_ st' = builder str (Some node) type_ st'
     /\ wrappedBuilder str None None st' = builder str None None st').
Proof.
  intros after_body. subst after_body.
  unfold LinariaStringifier.root, LinariaStringifier.root_after.
  split; [|split; [|split; [|split; [|split]]]].
  - intros override -> Hne. apply truthy_nonempty in Hne. now rewrite Hne.
  - intros ->. reflexivity.
  - intros after -> -> Hne. apply truthy_nonempty in Hne. now rewrite Hne.
  - intros -> [-> | ->]; reflexivity.
  - intros Hempty.
    destruct (raws_slot node "linariaAfter") as [[|c o]|];
      [cbn; now rewrite Hempty | reflexivity |].
    destruct (raws_slot node "after") as [[|c a]|];
      [cbn; now rewrite Hempty | reflexivity | cbn; now rewrite Hempty].
  - intros str type_ st' Hroot. unfold LinariaStringifier.wrappedBuilder.
    now rewrite Hroot.
Qed.

End Containers.

(** C9 on a run: an empty document reprints its input, and one with a
    child is left to the generic printer. *)
Lemma document_without_children_witness :
  LinariaStringifier.document Sample.text_sink Sample.generic_document
    (Sample.document_node [] (Some "const a = css``;")) "" = "const a = css``;"
  /\ LinariaStringifier.document Sample.text_sink Sample.generic_document
    (Sample.document_node [Sample.root_with []] (Some "const a = css``;")) ""
    = "<document>".
Proof.
  split.
  - destruct (document_without_children Sample.text_sink Sample.generic_document
                (Sample.document_node [] (Some "const a = css``;")) "") as (Hcss & _).
    rewrite (Hcss "const a = css``;"); reflexivity.
  - destruct (document_without_children Sample.text_sink Sample.generic_document
                (Sample.document_node [Sample.root_with []] (Some "const a = css``;")) "")
      as (_ & _ & _ & Hchildren).
    rewrite Hchildren; [reflexivity | discriminate].
Defined.

(** C8 on a run: the override [linariaAfter] wins over [after], between
    the body and the end fragment. *)
Lemma root_fragments_witness :
  LinariaStringifier.root Sample.text_sink Sample.generic_body
    (Sample.root_node
       (mkRaws (<["codeBefore" := "css`"]> (<["linariaAfter" := "  "]>
                 (<["after" := " "]> (<["codeAfter" := "`;"]> ∅)))) None)) ""
  = "css`<body>  `;".
Proof.
  destruct (root_fragments Sample.text_sink Sample.generic_body
              (Sample.root_node
                 (mkRaws (<["codeBefore" := "css`"]> (<["linariaAfter" := "  "]>
                           (<["after" := " "]> (<["codeAfter" := "`;"]> ∅)))) None)) "")
    as (Hoverride & _).
  rewrite (Hoverride "  "); (reflexivity || discriminate).
Defined.

(** * Further properties *)

(** ** More about the primitives *)

Lemma length_append s t :
  String.length (s ++ t) = (String.length s + String.length t)%nat.
Proof. induction s as [|a s IH]; simpl; [reflexivity | now rewrite IH]. Qed.

(** A string that does not hold the first code unit of [sep] does not
    hold [sep]. *)
Lemma includes_first_absent c sep' s :
  occurs c s = false -> includes s (String c sep') = false.
Proof.
  induction s as [|a s IH]; [reflexivity|]. simpl. intros H.
  apply orb_false_iff in H as [Ha Hs].
  rewrite (IH Hs), orb_false_r, Ascii.eqb_sym, Ha. reflexivity.
Qed.

Lemma occurs_all_digits c ds :
  is_digit c = false -> all_digits ds = true -> occurs c ds = false.
Proof.
  intros Hc. induction ds as [|a ds IH]; [reflexivity|]. simpl. intros H.
  apply andb_true_iff in H as [Ha Hds].
  now rewrite (IH Hds), (digit_neq a c Ha Hc).
Qed.

(** Splitting on the marker when nothing after its first occurrence
    holds it again. *)
Lemma second_split_marker_rest marker pre rest :
  first_unit_absent marker pre = true ->
  includes rest marker = false ->
  second (split (pre ++ marker ++ rest) marker) = Some rest.
Proof.
  intros Hpre Hrest. destruct marker as [|c marker']; [discriminate|].
  simpl in Hpre. apply negb_true_iff in Hpre.
  rewrite (split_first _ _ _ _ Hpre).
  rewrite split_not_included by (discriminate || assumption).
  reflexivity.
Qed.

Lemma trim_end_head c s :
  is_whitespace c = false -> exists t, trim_end (String c s) = String c t.
Proof.
  intros Hc. simpl. destruct (trim_end s) as [|b t].
  - rewrite Hc. now exists "".
  - now exists (String b t).
Qed.

(** Text that does not start like a number is not a number. *)
Lemma Number_not_numeric c s :
  Shape.may_start_number c = false -> Number (Some (String c s)) = NaN.
Proof.
  unfold Shape.may_start_number. intros H.
  repeat (apply orb_false_iff in H as [H ?]).
  unfold Number, StringToNumber, trim. cbn [trim_start].
  match goal with Hw : is_whitespace c = false |- _ =>
    rewrite Hw; destruct (trim_end_head c s Hw) as [t ->] end.
  assert (Hz : Ascii.eqb c "0" = false).
  { destruct (Ascii.eqb_spec c "0") as [->|]; [discriminate | reflexivity]. }
  assert (Hnd : non_decimal (String c t) = None).
  { unfold non_decimal. destruct t as [|b [|d t]]; try reflexivity. now rewrite Hz. }
  rewrite Hnd. unfold decimal_literal, sign_prefix.
  match goal with
  | Hp : Ascii.eqb c "+" = false, Hm : Ascii.eqb c "-" = false |- _ => rewrite Hp, Hm
  end.
  assert (Hinf : String.eqb (String c t) "Infinity" = false).
  { simpl. match goal with Hi : Ascii.eqb c "I" = false |- _ => now rewrite Hi end. }
  rewrite Hinf. unfold unsigned_decimal. cbn [span_digits]. rewrite H.
  match goal with Hd : Ascii.eqb c "." = false |- _ => rewrite Hd end.
  reflexivity.
Qed.

Lemma at_index_beyond xs n :
  Z.of_nat (List.length xs) <= n -> at_index xs n = None.
Proof.
  revert n. induction xs as [|x xs IH]; intros n Hn; [reflexivity|].
  cbn [List.length] in Hn. cbn [at_index].
  destruct (Z.eqb_spec n 0); [lia|]. apply IH. lia.
Qed.

Lemma element_beyond xs n :
  Z.of_nat (List.length xs) <= n -> element xs n = None.
Proof.
  intros H. unfold element. rewrite (at_index_beyond _ _ H).
  now destruct (n <? 2 ^ 32 - 1).
Qed.

(** ** The escaping, as a function on text *)

Section EscapingText.

Context {St : Type}.
Variable builder : string -> option Node -> option Boundary -> St -> St.

Local Abbreviation wrappedBuilder := (LinariaStringifier.wrappedBuilder builder).
Local Abbreviation escape := LinariaStringifier.escape.

Lemma escape_app s t : escape (s ++ t) = escape s ++ escape t.
Proof. unfold LinariaStringifier.escape. now rewrite !replace_all_app. Qed.

Lemma escape_cons a s : escape (String a s) = Claimed.escape_unit a ++ escape s.
Proof. now rewrite !escape_one_pass. Qed.

Lemma wrappedBuilder_other str n type_ st :
  type n <> NodeType.root ->
  wrappedBuilder str (Some n) type_ st = builder (escape str) (Some n) type_ st.
Proof.
  intros H. unfold LinariaStringifier.wrappedBuilder.
  destruct (type n); try reflexivity. congruence.
Qed.

(** X1. Escaping works code unit by code unit, so it does not matter how
    text is cut into fragments: for a node that is not a root, sending
    two pieces of text joined is sending the first piece escaped followed
    by the second piece escaped. *)
Theorem wrappedBuilder_concatenation (a b : string) (n : Node)
    (type_ : option Boundary) (st : St) :
  type n <> NodeType.root ->
  wrappedBuilder (a ++ b) (Some n) type_ st =
  builder (escape a ++ escape b) (Some n) type_ st.
Proof. intros H. now rewrite (wrappedBuilder_other _ _ _ _ H), escape_app. Qed.

(** X2. Escaping loses nothing: two texts with the same escaped form are
    the same text. *)
Theorem escape_injective (s t : string) : escape s = escape t -> s = t.
Proof.
  revert t. induction s as [|a s IH]; intros [|b t].
  - reflexivity.
  - rewrite escape_cons. unfold Claimed.escape_unit.
    destruct (Ascii.eqb b "\"); [|destruct (Ascii.eqb b "`")]; discriminate.
  - rewrite escape_cons. unfold Claimed.escape_unit.
    destruct (Ascii.eqb a "\"); [|destruct (Ascii.eqb a "`")]; discriminate.
  - rewrite !escape_cons. unfold Claimed.escape_unit.
    destruct (Ascii.eqb_spec a "\") as [->|Ha]; destruct (Ascii.eqb_spec b "\") as [->|Hb].
    + intros [= H]. f_equal. now apply IH.
    + destruct (Ascii.eqb_spec b "`") as [->|Hb'].
      * intros [= H]. 
      * intros [= H]. congruence.
    + destruct (Ascii.eqb_spec a "`") as [->|Ha'].
      * intros [= H].
      * intros [= H]. congruence.
    + destruct (Ascii.eqb_spec a "`") as [->|Ha']; destruct (Ascii.eqb_spec b "`") as [->|Hb'].
      * intros [= H]. f_equal. now apply IH.
      * intros [= H]. congruence.
      * intros [= H]. congruence.
      * intros [= -> H]. f_equal. now apply IH.
Qed.

(** X3. In escaped text backslashes and backticks occur in the pairs
    backslash-backslash and backslash-backtick only: read from the left,
    each backslash is followed by a backslash or a backtick, which it
    takes with it, and no backtick stands outside such a pair. The
    escaping does nothing about an interpolation: a dollar sign and an
    opening brace come out as they are, so this shape says nothing on
    what stands between them and the closing brace. *)
Theorem escape_well_escaped (s : string) :
  Shape.well_escaped (escape s) = true
  /\ escape ("${" ++ s) = "${" ++ escape s.
Proof.
  split; [|now rewrite escape_app].
  induction s as [|a s IH]; [reflexivity|].
  rewrite escape_cons. unfold Claimed.escape_unit.
  destruct (Ascii.eqb_spec a "\") as [->|Ha]; [exact IH|].
  destruct (Ascii.eqb_spec a "`") as [->|Hb]; [exact IH|].
  cbn [String.append Shape.well_escaped].
  apply Ascii.eqb_neq in Ha, Hb. now rewrite Ha, Hb.
Qed.

Lemma escape_length s :
  String.length (escape s) =
  (String.length s + Shape.count_unit "\" s + Shape.count_unit "`" s)%nat.
Proof.
  induction s as [|a s IH]; [reflexivity|].
  rewrite escape_cons, length_append, IH. unfold Claimed.escape_unit.
  cbn [Shape.count_unit String.length].
  destruct (Ascii.eqb_spec a "\") as [->|Ha]; [cbn; lia|].
  destruct (Ascii.eqb a "`"); cbn; lia.
Qed.

Lemma count_unit_occurs c s : Shape.count_unit c s = O <-> occurs c s = false.
Proof.
  induction s as [|a s IH]; simpl; [tauto|].
  destruct (Ascii.eqb a c); simpl; [split; [lia | discriminate] | exact IH].
Qed.

(** X4. The texts escaping leaves alone are those without a backslash
    and without a backtick; escaping any other text makes it longer, by
    one code unit for each backslash and each backtick. *)
Theorem escape_fixed_points (s : string) :
  (escape s = s <-> occurs "\" s = false /\ occurs "`" s = false)
  /\ String.length (escape s) =
     (String.length s + Shape.count_unit "\" s + Shape.count_unit "`" s)%nat.
Proof.
  split; [|apply escape_length]. split.
  - intros H. pose proof (escape_length s) as L. rewrite H in L.
    split; apply count_unit_occurs; lia.
  - intros [Hb Ht]. induction s as [|a s IH]; [reflexivity|].
    simpl in Hb, Ht. apply orb_false_iff in Hb as [Hb Hb'], Ht as [Ht Ht'].
    rewrite escape_cons, (IH Hb' Ht'). unfold Claimed.escape_unit.
    now rewrite Hb, Ht.
Qed.

End EscapingText.

(** X1 on a run: the two pieces [a`] and [\b] sent as one text with a
    comment node. *)
Lemma wrappedBuilder_concatenation_witness :
  LinariaStringifier.wrappedBuilder Sample.text_sink ("a`" ++ "\b")
    (Some (Sample.comment_node "" (Sample.root_with []))) None "" = "a\`\\b".
Proof.
  rewrite (wrappedBuilder_concatenation Sample.text_sink "a`" "\b"
             (Sample.comment_node "" (Sample.root_with [])) None "");
    [reflexivity | discriminate].
Defined.

(** X2 on a run. *)
Lemma escape_injective_witness :
  LinariaStringifier.escape "a`b" = LinariaStringifier.escape "a`b" /\ "a`b" = "a`b".
Proof.
  split; [reflexivity|]. apply (escape_injective "a`b" "a`b"). reflexivity.
Defined.

(** X4 on a run. *)
Lemma escape_fixed_points_witness :
  LinariaStringifier.escape "color: red" = "color: red".
Proof.
  apply (proj1 (escape_fixed_points "color: red")). split; reflexivity.
Defined.

(** ** More about the substitution routine *)

Lemma count_unit_app c s t :
  Shape.count_unit c (s ++ t) = (Shape.count_unit c s + Shape.count_unit c t)%nat.
Proof. induction s as [|a s IH]; simpl; [reflexivity | rewrite IH; lia]. Qed.

Lemma count_unit_zero c s : occurs c s = false -> Shape.count_unit c s = O.
Proof. apply count_unit_occurs. Qed.

(** The pieces of a split on a space hold no space, and there is one
    more piece than there are spaces. *)
Lemma split_space_pieces s :
  Forall (fun piece => occurs " " piece = false) (split s " ")
  /\ List.length (split s " ") = S (Shape.count_unit " " s).
Proof.
  unfold split. induction s as [|a s [IHf IHl]]; [split; [repeat constructor | reflexivity]|].
  cbn [split_scan starts_with String.length Shape.count_unit].
  destruct (split_scan " " s 0) as [|p r] eqn:E;
    [exfalso; exact (split_scan_nonempty _ _ _ E)|].
  rewrite Ascii.eqb_sym.
  destruct (Ascii.eqb_spec a " ") as [->|Hne]; simpl andb; cbv iota.
  - change (1 - 1)%nat with 0%nat. rewrite E. split.
    + constructor; [reflexivity | exact IHf].
    + cbn [List.length] in *. lia.
  - inversion IHf as [|? ? Hp Hr]; subst. split.
    + constructor; [|exact Hr]. simpl. rewrite Hp.
      apply Ascii.eqb_neq in Hne. now rewrite Hne.
    + cbn [List.length] in *. lia.
Qed.

Lemma join_space_count xs :
  xs <> [] ->
  Shape.count_unit " " (join xs " ") =
  (list_sum (map (Shape.count_unit " ") xs) + (List.length xs - 1))%nat.
Proof.
  induction xs as [|x xs IH]; [congruence|]. intros _.
  destruct xs as [|y r].
  - cbn. lia.
  - change (join (x :: y :: r) " ") with (x ++ " " ++ join (y :: r) " ").
    rewrite !count_unit_app, IH by discriminate. cbn. lia.
Qed.

Section SubstitutionMore.

Variable shortPlaceholderText : string.

Local Abbreviation substitute_token :=
  (LinariaStringifier.substitute_token shortPlaceholderText).
Local Abbreviation substitutePlaceholders :=
  (LinariaStringifier.substitutePlaceholders shortPlaceholderText).

Lemma substitutePlaceholders_no_table s : substitutePlaceholders s None = s.
Proof.
  unfold LinariaStringifier.substitutePlaceholders.
  destruct (includes s shortPlaceholderText); [|reflexivity]. simpl.
  rewrite map_ext with (g := fun tok => tok).
  - rewrite map_id. apply join_split_space.
  - intros tok. reflexivity.
Qed.

(** X5. Without an expression table, and with an empty one, the routine
    gives back its input, whatever the input: every token is kept, and
    joining the tokens of a split on single spaces rebuilds the string,
    runs of spaces and spaces at either end included. *)
Theorem substitutePlaceholders_without_table (s : string) :
  substitutePlaceholders s None = s /\ substitutePlaceholders s (Some []) = s.
Proof.
  split.
  - apply substitutePlaceholders_no_table.
  - apply substitutePlaceholders_all_empty. intros e [].
Qed.

(** X8. A token in which the marker is followed by text that does not
    start like a number (a letter other than [I], a colon, a bracket, and
    so on) is kept, whatever the table: the text after the marker does
    not convert to a number. The text after the marker is taken up to
    the next occurrence of the marker, so it is assumed to hold none. *)
Theorem token_non_numeric_kept
    (expressions : option (list string)) (pre : string) (c : ascii) (rest : string) :
  first_unit_absent shortPlaceholderText pre = true ->
  Shape.may_start_number c = false ->
  includes (String c rest) shortPlaceholderText = false ->
  substitute_token expressions (pre ++ shortPlaceholderText ++ String c rest) =
  pre ++ shortPlaceholderText ++ String c rest.
Proof.
  intros Hpre Hc Hrest. unfold LinariaStringifier.substitute_token.
  rewrite (second_split_marker_rest _ _ _ Hpre Hrest), (Number_not_numeric _ _ Hc).
  now rewrite truthy_expression_NaN.
Qed.

Lemma substitute_token_spaces expressions tok :
  (forall es e, expressions = Some es -> In e es -> occurs " " e = false) ->
  occurs " " tok = false ->
  Shape.count_unit " " (substitute_token expressions tok) = O.
Proof.
  intros Hes Htok. unfold LinariaStringifier.substitute_token.
  destruct (LinariaStringifier.truthy_expression expressions _) as [e|] eqn:E.
  - apply truthy_expression_Some in E as (es & Hsome & _ & Hin & _).
    apply count_unit_zero. eauto.
  - now apply count_unit_zero.
Qed.

(** X9. The routine never removes a space: its result holds at least as
    many spaces as its input, and exactly as many when no entry of the
    table holds a space. *)
Theorem substitutePlaceholders_keeps_spaces
    (s : string) (expressions : option (list string)) :
  (Shape.count_unit " " s <=
   Shape.count_unit " " (substitutePlaceholders s expressions))%nat
  /\ ((forall es e, expressions = Some es -> In e es -> occurs " " e = false) ->
      Shape.count_unit " " (substitutePlaceholders s expressions) =
      Shape.count_unit " " s).
Proof.
  unfold LinariaStringifier.substitutePlaceholders.
  destruct (includes s shortPlaceholderText); cbn [negb]; cbv iota zeta;
    [|split; [lia | reflexivity]].
  destruct (split_space_pieces s) as [Hpieces Hlen].
  assert (Hne : map (substitute_token expressions) (split s " ") <> []).
  { destruct (split s " "); [discriminate Hlen | discriminate]. }
  rewrite (join_space_count _ Hne), length_map, Hlen. split; [lia|].
  intros Hes.
  assert (Hsum : list_sum (map (Shape.count_unit " ")
                   (map (substitute_token expressions) (split s " "))) = O).
  { clear Hlen Hne. induction Hpieces as [|tok toks Htok _ IH]; [reflexivity|].
    cbn [map]. unfold list_sum in *. cbn [fold_right].
    now rewrite IH, (substitute_token_spaces _ _ Hes Htok). }
  rewrite Hsum. lia.
Qed.

End SubstitutionMore.

(** X8 on a run: [pcss_lin:0], the marker followed by a colon, is kept. *)
Lemma token_non_numeric_kept_witness :
  LinariaStringifier.substitute_token Sample.shortPlaceholderText
    (Some ["${x}"]) "pcss_lin:0" = "pcss_lin:0".
Proof.
  apply (token_non_numeric_kept Sample.shortPlaceholderText (Some ["${x}"]) "" ":" "0");
    reflexivity.
Defined.

(** X9 on a run: an expression without a space keeps the count of
    spaces. *)
Lemma substitutePlaceholders_keeps_spaces_witness :
  Shape.count_unit " "
    (LinariaStringifier.substitutePlaceholders Sample.shortPlaceholderText
       " a  pcss_lin0 " (Some ["${x}"]))
  = Shape.count_unit " " " a  pcss_lin0 ".
Proof.
  apply (proj2 (substitutePlaceholders_keeps_spaces Sample.shortPlaceholderText
                  " a  pcss_lin0 " (Some ["${x}"]))).
  intros es e [= <-] [<-|[]]. reflexivity.
Defined.

(** ** More about the handlers *)

Section HandlersMore.

Context {St : Type}.
Variable placeholderText shortPlaceholderText : string.
Variable builder : string -> option Node -> option Boundary -> St -> St.
Variable super_comment : Node -> St -> St.
Variable block : Node -> string -> St -> St.
Variable super_raw : Node -> string -> option string -> string.
Variable super_rawValue : Node -> string -> string.

Local Abbreviation wrappedBuilder := (LinariaStringifier.wrappedBuilder builder).
Local Abbreviation escape := LinariaStringifier.escape.
Local Abbreviation comment :=
  (LinariaStringifier.comment placeholderText builder super_comment).
Local Abbreviation raw := (LinariaStringifier.raw super_raw).
Local Abbreviation rawValue := (LinariaStringifier.rawValue super_rawValue).
Local Abbreviation decl_prop := (LinariaStringifier.decl_prop placeholderText).
Local Abbreviation decl_value :=
  (LinariaStringifier.decl_value shortPlaceholderText super_rawValue).
Local Abbreviation decl :=
  (LinariaStringifier.decl placeholderText shortPlaceholderText builder
     super_raw super_rawValue).
Local Abbreviation rule :=
  (LinariaStringifier.rule shortPlaceholderText builder block super_rawValue).
Local Abbreviation substitutePlaceholders :=
  (LinariaStringifier.substitutePlaceholders shortPlaceholderText).

(** X10. For a comment that is the full marker, a colon and decimal
    digits, the digits are read as a position in the root's table: a
    position inside the table selects the entry there, which is emitted
    in place of the comment when it is non-empty, and a position at or
    past the end of the table leaves the comment to the generic
    printer. *)
Theorem comment_index_bounds (node : Node) (st : St) (ds : string) (es : list string) :
  literal_pattern placeholderText = true ->
  occurs ":" placeholderText = false ->
  text node = placeholderText ++ ":" ++ ds -> ds <> "" -> all_digits ds = true ->
  root_expressions node = Some es ->
  (forall i e,
     decimal ds = Z.of_nat i -> Z.of_nat i < 2 ^ 32 - 1 ->
     nth_error es i = Some e -> e <> "" ->
     comment node st = wrappedBuilder e (Some node) None st)
  /\ (Z.of_nat (List.length es) <= decimal ds ->
      comment node st = super_comment node st).
Proof.
  intros _ Hcolon Htext Hne Hds Hes. unfold LinariaStringifier.comment.
  rewrite (comment_expression_placeholder placeholderText node ds Hcolon Htext Hne Hds), Hes.
  split.
  - intros i e Hi Hlt Hnth Hnonempty. rewrite Hi, (element_nth_error _ _ Hlt), Hnth.
    apply truthy_nonempty in Hnonempty. now rewrite Hnonempty.
  - intros Hbeyond. now rewrite (element_beyond _ _ Hbeyond).
Qed.

(** X11. The expression put in place of a comment goes through the
    escaping like any other text of a comment node: what reaches the
    underlying sink is the expression with its backslashes doubled and
    its backticks preceded by a backslash. *)
Theorem comment_expression_escaped
    (node : Node) (st : St) (ds : string) (es : list string) (e : string) :
  literal_pattern placeholderText = true ->
  occurs ":" placeholderText = false ->
  type node = NodeType.comment ->
  text node = placeholderText ++ ":" ++ ds -> ds <> "" -> all_digits ds = true ->
  root_expressions node = Some es -> element es (decimal ds) = Some e -> e <> "" ->
  comment node st = builder (escape e) (Some node) None st.
Proof.
  intros _ Hcolon Htype Htext Hne Hds Hes He Hnonempty. unfold LinariaStringifier.comment.
  rewrite (comment_expression_placeholder placeholderText node ds Hcolon Htext Hne Hds),
    Hes, He.
  apply truthy_nonempty in Hnonempty. rewrite Hnonempty.
  apply wrappedBuilder_other. rewrite Htype. discriminate.
Qed.

(** X12. A property name in which the marker is followed by a colon and
    digits, the form placeholders take in comments, is not substituted:
    what follows the marker starts with the colon and does not convert
    to a number, so the name is printed as it stands whatever the
    table. *)
Theorem decl_prop_colon_form_kept (node : Node) (pre ds : string) :
  starts_with_non_digit placeholderText = true ->
  occurs ":" placeholderText = false ->
  first_unit_absent placeholderText pre = true ->
  all_digits ds = true ->
  prop node = pre ++ placeholderText ++ ":" ++ ds ->
  decl_prop node = prop node.
Proof.
  intros Hm Hcolon Hpre Hds Hprop. unfold LinariaStringifier.decl_prop.
  rewrite Hprop, includes_app.
  assert (Hrest : includes (":" ++ ds) placeholderText = false).
  { destruct placeholderText as [|c m]; [discriminate|].
    apply includes_first_absent. cbn [starts_with_non_digit occurs] in Hm, Hcolon.
    apply orb_false_iff in Hcolon as [Hc _]. apply negb_true_iff in Hm.
    change (occurs c (":" ++ ds)) with (Ascii.eqb ":" c || occurs c ds).
    now rewrite Ascii.eqb_sym, Hc, (occurs_all_digits c ds Hm Hds). }
  rewrite (second_split_marker_rest _ _ _ Hpre Hrest).
  cbn [String.append]. rewrite (Number_not_numeric ":" ds eq_refl).
  now rewrite truthy_expression_NaN.
Qed.

(** The text [decl] sends, as one concatenation. *)
Lemma decl_string node semicolon st :
  decl node semicolon st =
  wrappedBuilder
    (decl_prop node ++ raw node "between" (Some "colon") ++ decl_value node
     ++ (if important node then LinariaStringifier.important_text node else "")
     ++ (if semicolon then ";" else ""))
    (Some node) None st.
Proof.
  unfold LinariaStringifier.decl. f_equal.
  destruct (important node), semicolon; now rewrite ?append_assoc, ?append_nil_r.
Qed.

(** X13. What reaches the underlying sink for a declaration is its parts
    escaped one by one: the printed property name, the [between] raw,
    the printed value and the [important] text each have their
    backslashes doubled and their backticks preceded by a backslash,
    expressions substituted into the name or the value included; the
    semicolon follows as it is. *)
Theorem decl_escaped_piecewise (node : Node) (semicolon : bool) (st : St) :
  type node = NodeType.decl ->
  decl node semicolon st =
  builder
    (escape (decl_prop node) ++ escape (raw node "between" (Some "colon"))
     ++ escape (decl_value node)
     ++ escape (if important node then LinariaStringifier.important_text node else "")
     ++ (if semicolon then ";" else ""))
    (Some node) None st.
Proof.
  intros Htype. rewrite decl_string, wrappedBuilder_other by (rewrite Htype; discriminate).
  rewrite !escape_app. now destruct semicolon.
Qed.

(** X14. The rule handler hands the generic block printing the selector
    after substitution, and then emits the [ownSemicolon] raw as the end
    fragment of the rule when that raw is non-empty, and nothing when it
    is empty or missing. The selector substituted is the raw value of
    [selector], so the [linariaSelector] override when the node has
    one. *)
Theorem rule_fragments (node : Node) (st : St) :
  let selector :=
    substitutePlaceholders (rawValue node "selector") (root_expressions node) in
  (forall s,
     raws_slot node "ownSemicolon" = Some s -> s <> "" ->
     rule node st =
     wrappedBuilder s (Some node) (Some boundary_end) (block node selector st))
  /\ (raws_slot node "ownSemicolon" = None \/ raws_slot node "ownSemicolon" = Some "" ->
      rule node st = block node selector st)
  /\ (forall override,
        raws_slot node "linariaSelector" = Some override ->
        rawValue node "selector" = override).
Proof.
  intros selector.
  assert (Hsel : (if includes (rawValue node "selector") shortPlaceholderText
                  then substitutePlaceholders (rawValue node "selector")
                         (root_expressions node)
                  else rawValue node "selector") = selector).
  { subst selector. unfold LinariaStringifier.substitutePlaceholders.
    now destruct (includes (rawValue node "selector") shortPlaceholderText). }
  unfold LinariaStringifier.rule, truthy_slot. rewrite Hsel.
  split; [|split].
  - intros s -> Hne. apply truthy_nonempty in Hne. now rewrite Hne.
  - intros [-> | ->]; reflexivity.
  - intros override Ho. unfold LinariaStringifier.rawValue, own_units, own_property.
    unfold LinariaStringifier.rawValue_in.
    change (string_of_units (LinariaStringifier.linariaProp "selector"))
      with (Some "linariaSelector").
    change (String.eqb "linariaSelector" "linariaTemplateExpressions") with false.
    cbv iota. unfold raws_slot in Ho. now rewrite Ho.
Qed.

(** X15. On a tree whose root carries no expression table nothing is
    substituted: a comment is left to the generic printer even when its
    text is a placeholder, a declaration prints its property name and its
    raw value as they stand, and a rule hands its raw selector to the
    generic block printing. *)
Theorem no_table_nothing_substituted (node : Node) (st : St) :
  root_expressions node = None ->
  comment node st = super_comment node st
  /\ decl_prop node = prop node
  /\ decl_value node = rawValue node "value"
  /\ rule node st =
     match truthy_slot node "ownSemicolon" with
     | Some s =>
         wrappedBuilder s (Some node) (Some boundary_end)
           (block node (rawValue node "selector") st)
     | None => block node (rawValue node "selector") st
     end.
Proof.
  intros Hnone.
  assert (Hid : forall s, (if includes s shortPlaceholderText
                           then substitutePlaceholders s None else s) = s).
  { intros s. destruct (includes s shortPlaceholderText); [|reflexivity].
    apply substitutePlaceholders_no_table. }
  split; [|split; [|split]].
  - unfold LinariaStringifier.comment, LinariaStringifier.comment_expression.
    rewrite Hnone.
    now destruct (LinariaStringifier.placeholderPattern_test placeholderText (text node)).
  - unfold LinariaStringifier.decl_prop. rewrite Hnone.
    now destruct (includes (prop node) placeholderText).
  - unfold LinariaStringifier.decl_value. rewrite Hnone. apply Hid.
  - unfold LinariaStringifier.rule. rewrite Hnone, Hid. reflexivity.
Qed.

End HandlersMore.

(** X16. The raw value a declaration prints is the [linariaValue]
    override whenever the node's raws have one, an empty one included,
    and the generic printer's raw value only when they have none; the
    substitution runs on whichever text that is. *)
Theorem decl_value_override
    (shortPlaceholderText : string) (super_rawValue : Node -> string -> string)
    (node : Node) :
  (forall v,
     raws_slot node "linariaValue" = Some v ->
     LinariaStringifier.decl_value shortPlaceholderText super_rawValue node =
     LinariaStringifier.substitutePlaceholders shortPlaceholderText v
       (root_expressions node))
  /\ (raws_slot node "linariaValue" = None ->
      LinariaStringifier.decl_value shortPlaceholderText super_rawValue node =
      LinariaStringifier.substitutePlaceholders shortPlaceholderText
        (super_rawValue node "value") (root_expressions node)).
Proof.
  assert (Hraw : LinariaStringifier.rawValue super_rawValue node "value" =
                 match raws_slot node "linariaValue" with
                 | Some v => v
                 | None => super_rawValue node "value"
                 end).
  { unfold LinariaStringifier.rawValue, LinariaStringifier.rawValue_in,
      own_units, own_property, raws_slot.
    change (string_of_units (LinariaStringifier.linariaProp "value"))
      with (Some "linariaValue").
    change (String.eqb "linariaValue" "linariaTemplateExpressions") with false.
    cbv iota. now destruct (slots (raws node) !! "linariaValue"). }
  split.
  - intros v Hv. rewrite decl_value_substituted, Hraw, Hv. reflexivity.
  - intros Hv. rewrite decl_value_substituted, Hraw, Hv. reflexivity.
Qed.

(** X10 on a run: with two expressions, the comment [pcss-lin:1] is
    replaced by the second and [pcss-lin:2] is left to the generic
    printer. *)
Lemma comment_index_bounds_witness :
  LinariaStringifier.comment Sample.placeholderText Sample.text_sink
    Sample.generic_comment
    (Sample.comment_node "pcss-lin:1" (Sample.root_with ["${a}"; "${b}"])) ""
  = "${b}"
  /\ LinariaStringifier.comment Sample.placeholderText Sample.text_sink
    Sample.generic_comment
    (Sample.comment_node "pcss-lin:2" (Sample.root_with ["${a}"; "${b}"])) ""
  = "/*pcss-lin:2*/".
Proof.
  split.
  - destruct (comment_index_bounds Sample.placeholderText Sample.text_sink
                Sample.generic_comment
                (Sample.comment_node "pcss-lin:1" (Sample.root_with ["${a}"; "${b}"]))
                "" "1" ["${a}"; "${b}"]
                eq_refl eq_refl eq_refl ltac:(discriminate) eq_refl eq_refl) as [Hin _].
    rewrite (Hin 1%nat "${b}"); [reflexivity | reflexivity | reflexivity | reflexivity
                                | discriminate].
  - destruct (comment_index_bounds Sample.placeholderText Sample.text_sink
                Sample.generic_comment
                (Sample.comment_node "pcss-lin:2" (Sample.root_with ["${a}"; "${b}"]))
                "" "2" ["${a}"; "${b}"]
                eq_refl eq_refl eq_refl ltac:(discriminate) eq_refl eq_refl) as [_ Hout].
    rewrite Hout; [reflexivity | vm_compute; discriminate].
Defined.

(** X11 on a run: an expression that holds a template literal of its own
    reaches the sink with its backticks escaped. *)
Lemma comment_expression_escaped_witness :
  LinariaStringifier.comment Sample.placeholderText Sample.text_sink
    Sample.generic_comment
    (Sample.comment_node "pcss-lin:0" (Sample.root_with ["${f(`x`)}"])) ""
  = "${f(\`x\`)}".
Proof.
  rewrite (comment_expression_escaped Sample.placeholderText Sample.text_sink
             Sample.generic_comment
             (Sample.comment_node "pcss-lin:0" (Sample.root_with ["${f(`x`)}"]))
             "" "0" ["${f(`x`)}"] "${f(`x`)}"
             eq_refl eq_refl eq_refl eq_refl ltac:(discriminate) eq_refl eq_refl eq_refl
             ltac:(discriminate)).
  reflexivity.
Defined.

(** X12 on a run: the property name [pcss-lin:0] is printed as it
    stands. *)
Lemma decl_prop_colon_form_kept_witness :
  LinariaStringifier.decl_prop Sample.placeholderText
    (Sample.decl_node ∅ "pcss-lin:0" "red" false (Sample.root_with ["color"]))
  = "pcss-lin:0".
Proof.
  exact (decl_prop_colon_form_kept Sample.placeholderText
           (Sample.decl_node ∅ "pcss-lin:0" "red" false (Sample.root_with ["color"]))
           "" "0" eq_refl eq_refl eq_refl eq_refl eq_refl).
Defined.

(** X13 on a run: a backtick in the value and one in the substituted
    expression are both escaped. *)
Lemma decl_escaped_piecewise_witness :
  LinariaStringifier.decl Sample.placeholderText Sample.shortPlaceholderText
    Sample.text_sink Sample.generic_raw Sample.generic_rawValue
    (Sample.decl_node (<["between" := ": "]> ∅) "content" "'`' pcss_lin0" false
       (Sample.root_with ["${f(`x`)}"])) true ""
  = "content: '\`' ${f(\`x\`)};".
Proof.
  rewrite (decl_escaped_piecewise Sample.placeholderText Sample.shortPlaceholderText
             Sample.text_sink Sample.generic_raw Sample.generic_rawValue
             (Sample.decl_node (<["between" := ": "]> ∅) "content" "'`' pcss_lin0" false
                (Sample.root_with ["${f(`x`)}"])) true "" eq_refl).
  reflexivity.
Defined.

(** X14 on a run: a rule with a placeholder selector and an
    [ownSemicolon]. *)
Lemma rule_fragments_witness :
  LinariaStringifier.rule Sample.shortPlaceholderText Sample.text_sink
    SampleRule.generic_block Sample.generic_rawValue
    (SampleRule.rule_node (<["ownSemicolon" := ";"]> ∅) ".pcss_lin0 a"
       (Sample.root_with ["${x}"])) ""
  = "${x} a{};".
Proof.
  destruct (rule_fragments Sample.shortPlaceholderText Sample.text_sink
              SampleRule.generic_block Sample.generic_rawValue
              (SampleRule.rule_node (<["ownSemicolon" := ";"]> ∅) ".pcss_lin0 a"
                 (Sample.root_with ["${x}"])) "") as (Hsemi & _ & _).
  rewrite (Hsemi ";"); [reflexivity | reflexivity | discriminate].
Defined.

(** X15 on a run: without a table the comment [pcss-lin:0] is printed by
    the generic printer. *)
Lemma no_table_nothing_substituted_witness :
  LinariaStringifier.comment Sample.placeholderText Sample.text_sink
    Sample.generic_comment
    (Sample.comment_node "pcss-lin:0" (Sample.root_node Sample.no_raws)) ""
  = "/*pcss-lin:0*/".
Proof.
  destruct (no_table_nothing_substituted Sample.placeholderText
              Sample.shortPlaceholderText Sample.text_sink Sample.generic_comment
              SampleRule.generic_block Sample.generic_rawValue
              (Sample.comment_node "pcss-lin:0" (Sample.root_node Sample.no_raws)) ""
              eq_refl) as (Hcomment & _).
  rewrite Hcomment. reflexivity.
Defined.

(** X16 on a run: an empty [linariaValue] prints an empty value. *)
Lemma decl_value_override_witness :
  LinariaStringifier.decl_value Sample.shortPlaceholderText Sample.generic_rawValue
    (Sample.decl_node (<["linariaValue" := ""]> ∅) "color" "red" false
       (Sample.root_with []))
  = "".
Proof.
  destruct (decl_value_override Sample.shortPlaceholderText
              Sample.generic_rawValue
              (Sample.decl_node (<["linariaValue" := ""]> ∅) "color" "red" false
                 (Sample.root_with []))) as (Hoverride & _).
  rewrite (Hoverride ""); reflexivity.
Defined.

(** X17. Two placeholders written without a space between them make one
    token, and only the first counts: the index is the digits between
    the first occurrence of the marker and the second, and the whole
    token, second placeholder included, is replaced by the entry of the
    first when that entry is non-empty. *)
Theorem token_second_marker_dropped
    (shortPlaceholderText : string) (es : list string) (pre ds rest e : string) :
  starts_with_non_digit shortPlaceholderText = true ->
  first_unit_absent shortPlaceholderText pre = true ->
  ds <> "" -> all_digits ds = true ->
  element es (decimal ds) = Some e -> e <> "" ->
  LinariaStringifier.substitute_token shortPlaceholderText (Some es)
    (pre ++ shortPlaceholderText ++ ds ++ shortPlaceholderText ++ rest) = e.
Proof.
  intros Hm Hpre Hne Hds He Hnonempty. unfold LinariaStringifier.substitute_token.
  assert (Hsplit : second (split (pre ++ shortPlaceholderText ++ ds
                                  ++ shortPlaceholderText ++ rest)
                            shortPlaceholderText) = Some ds).
  { destruct shortPlaceholderText as [|c m] eqn:E; [discriminate|].
    cbn [first_unit_absent starts_with_non_digit] in Hpre, Hm.
    apply negb_true_iff in Hpre, Hm.
    rewrite (split_first _ _ _ _ Hpre).
    rewrite (split_first _ _ _ _ (occurs_all_digits c ds Hm Hds)). reflexivity. }
  rewrite Hsplit. unfold LinariaStringifier.truthy_expression.
  rewrite (isNaN_Number_digits _ Hne Hds), (get_Number_digits _ _ Hne Hds), He.
  apply truthy_nonempty in Hnonempty. cbn [negb]. now rewrite Hnonempty.
Qed.

(** X17 on a run: [pcss_lin0pcss_lin1] prints the first expression
    alone. *)
Lemma token_second_marker_dropped_witness :
  LinariaStringifier.substitute_token Sample.shortPlaceholderText
    (Some ["${x}"; "${y}"]) "pcss_lin0pcss_lin1" = "${x}".
Proof.
  apply (token_second_marker_dropped Sample.shortPlaceholderText ["${x}"; "${y}"]
           "" "0" "1" "${x}"); (reflexivity || discriminate).
Defined.

(** ** The token rule, from the first occurrence of the marker *)

Lemma strip_prefix_starts p s : strip_prefix p s = None <-> starts_with p s = false.
Proof.
  revert s. induction p as [|a p IH]; intros s; simpl.
  - split; discriminate.
  - destruct s as [|b s]; [tauto|].
    destruct (Ascii.eqb a b); simpl; [apply IH | tauto].
Qed.

(** Whether [p] starts a string shows on its first [length p] code
    units. *)
Lemma strip_prefix_longer p x z :
  (String.length p <= String.length x)%nat ->
  strip_prefix p x = None -> strip_prefix p (x ++ z) = None.
Proof.
  revert x. induction p as [|a p IH]; intros x Hlen; simpl; [discriminate|].
  destruct x as [|b x]; [simpl in Hlen; lia|]. simpl in Hlen |- *.
  destruct (Ascii.eqb a b); [apply IH; lia | reflexivity].
Qed.

(** [split] names the pieces around the first occurrence. *)
Lemma split_cut marker s :
  marker <> "" ->
  split s marker =
  match Token.cut marker s with
  | Some (pre, rest) => pre :: split rest marker
  | None => [s]
  end.
Proof.
  intros Hm. destruct marker as [|c m]; [congruence|]. unfold split.
  induction s as [|a s IH]; [reflexivity|].
  cbn [Token.cut].
  destruct (strip_prefix (String c m) (String a s)) as [rest|] eqn:E.
  - apply strip_prefix_Some in E. rewrite E. now apply split_scan_sep.
  - apply strip_prefix_starts in E. cbn [split_scan]. rewrite E, IH.
    destruct (Token.cut (String c m) s) as [[pre rest]|]; reflexivity.
Qed.

(** The second piece of the split is the text after the first
    occurrence of the marker, up to the next one. *)
Lemma second_split_index_text marker tok :
  marker <> "" -> second (split tok marker) = Token.index_text marker tok.
Proof.
  intros Hm. unfold Token.index_text. rewrite (split_cut _ _ Hm).
  destruct (Token.cut marker tok) as [[pre rest]|]; [|reflexivity].
  rewrite (split_cut _ _ Hm).
  destruct (Token.cut marker rest) as [[index rest']|]; reflexivity.
Qed.

Lemma cut_app marker s pre rest :
  Token.cut marker s = Some (pre, rest) -> s = pre ++ marker ++ rest.
Proof.
  revert pre. induction s as [|a s IH]; intros pre; cbn [Token.cut].
  - destruct (strip_prefix marker "") as [r|] eqn:E; [|discriminate].
    intros [= <- <-]. now apply strip_prefix_Some in E.
  - destruct (strip_prefix marker (String a s)) as [r|] eqn:E.
    + intros [= <- <-]. now apply strip_prefix_Some in E.
    + destruct (Token.cut marker s) as [[pre' rest']|]; [|discriminate].
      intros [= <- <-]. cbn. f_equal. now apply IH.
Qed.

Lemma cut_None marker s : Token.cut marker s = None <-> includes s marker = false.
Proof.
  induction s as [|a s IH]; cbn [Token.cut includes].
  - rewrite orb_false_r, <- strip_prefix_starts.
    destruct (strip_prefix marker ""); split; congruence.
  - rewrite orb_false_iff, <- strip_prefix_starts, <- IH.
    destruct (strip_prefix marker (String a s)); [split; [discriminate | intros [? _]; discriminate]|].
    destruct (Token.cut marker s) as [[pre rest]|]; split; try tauto; try discriminate.
    intros [_ ?]. discriminate.
Qed.

(** When the marker does not start before the end of [pre] in
    [pre ++ marker], it does not either with more text after it. *)
Lemma cut_extend marker pre rest :
  Token.cut marker (pre ++ marker) = Some (pre, "") ->
  Token.cut marker (pre ++ marker ++ rest) = Some (pre, rest).
Proof.
  induction pre as [|a pre IH].
  - intros _. cbn [String.append].
    assert (E : strip_prefix marker (marker ++ rest) = Some rest)
      by now apply strip_prefix_Some.
    destruct (marker ++ rest); cbn [Token.cut]; now rewrite E.
  - cbn [String.append Token.cut].
    destruct (strip_prefix marker (String a (pre ++ marker))) as [r|] eqn:E;
      [intros [= ? ?]; discriminate|].
    destruct (Token.cut marker (pre ++ marker)) as [[p r]|] eqn:C; [|discriminate].
    intros [= -> ->].
    assert (E' : strip_prefix marker (String a (pre ++ marker ++ rest)) = None).
    { replace (String a (pre ++ marker ++ rest))
        with (String a (pre ++ marker) ++ rest)
        by (cbn [String.append]; now rewrite append_assoc).
      apply strip_prefix_longer; [|exact E].
      cbn [String.length]. rewrite length_append. lia. }
    rewrite E', IH by reflexivity. reflexivity.
Qed.

(** In particular when the first code unit of the marker is nowhere in
    [pre]. *)
Lemma cut_first_unit_absent marker pre :
  first_unit_absent marker pre = true ->
  Token.cut marker (pre ++ marker) = Some (pre, "").
Proof.
  destruct marker as [|c m]; [discriminate|]. cbn [first_unit_absent].
  intros H. apply negb_true_iff in H.
  induction pre as [|a pre IH].
  - cbn [String.append Token.cut].
    assert (E : strip_prefix (String c m) (String c m) = Some "")
      by (apply strip_prefix_Some; now rewrite append_nil_r).
    now rewrite E.
  - cbn [occurs] in H. apply orb_false_iff in H as [Ha Hpre].
    cbn [String.append Token.cut strip_prefix].
    rewrite Ascii.eqb_sym, Ha, (IH Hpre). reflexivity.
Qed.

Lemma includes_digits_app marker ds s :
  starts_with_non_digit marker = true -> all_digits ds = true ->
  includes (ds ++ s) marker = includes s marker.
Proof.
  destruct marker as [|c m]; [discriminate|]. cbn [starts_with_non_digit].
  intros Hc. apply negb_true_iff in Hc.
  induction ds as [|a ds IH]; [reflexivity|]. cbn [all_digits]. intros H.
  apply andb_true_iff in H as [Ha Hds].
  cbn [String.append includes starts_with].
  now rewrite Ascii.eqb_sym, (digit_neq a c Ha Hc), (IH Hds).
Qed.

(** The index text of a token made of leading text, the marker at its
    first occurrence, and decimal digits. *)
Lemma index_text_digits marker pre ds :
  starts_with_non_digit marker = true ->
  Token.cut marker (pre ++ marker) = Some (pre, "") ->
  all_digits ds = true ->
  Token.index_text marker (pre ++ marker ++ ds) = Some ds.
Proof.
  intros Hm Hpre Hds. unfold Token.index_text.
  rewrite (cut_extend _ _ ds Hpre).
  now rewrite (proj2 (cut_None marker ds) (includes_all_digits ds marker Hm Hds)).
Qed.

Lemma trim_end_keep s c rest :
  is_whitespace c = false ->
  exists t, trim_end (s ++ String c rest) = s ++ String c t.
Proof.
  intros Hc. induction s as [|a s [t IH]].
  - apply (trim_end_head c rest Hc).
  - exists t. cbn [String.append trim_end]. rewrite IH.
    destruct s; reflexivity.
Qed.

(** Digits followed by a code unit that cannot go on a number are not a
    number. *)
Lemma Number_digits_junk ds c rest :
  ds <> "" -> all_digits ds = true -> Shape.may_continue_number c = false ->
  Number (Some (ds ++ String c rest)) = NaN.
Proof.
  intros Hne Hds Hc. unfold Shape.may_continue_number in Hc.
  repeat (apply orb_false_iff in Hc as [Hc ?]).
  unfold Number, StringToNumber, trim.
  assert (Hstart : trim_start (ds ++ String c rest) = ds ++ String c rest).
  { destruct ds as [|a ds]; [congruence|]. cbn [String.append trim_start].
    cbn [all_digits] in Hds. apply andb_true_iff in Hds as [Ha _].
    now rewrite (digit_not_whitespace a Ha). }
  rewrite Hstart.
  match goal with Hw : is_whitespace c = false |- _ =>
    destruct (trim_end_keep ds c rest Hw) as [t ->] end.
  assert (Hspan : span_digits (ds ++ String c t) = (ds, String c t)).
  { clear Hne Hstart. induction ds as [|a ds IH]; cbn [String.append span_digits].
    - now rewrite Hc.
    - cbn [all_digits] in Hds. apply andb_true_iff in Hds as [Ha Hds].
      now rewrite Ha, (IH Hds). }
  assert (Hnd : non_decimal (ds ++ String c t) = None).
  { destruct ds as [|z [|b ds]]; [congruence| |].
    - cbn [String.append non_decimal]. destruct t as [|d t]; [reflexivity|].
      repeat match goal with H : Ascii.eqb c _ = false |- _ => rewrite H; clear H end.
      now destruct (Ascii.eqb z "0").
    - cbn [all_digits] in Hds. apply andb_true_iff in Hds as [_ Hds].
      apply andb_true_iff in Hds as [Hb _].
      cbn [String.append non_decimal].
      destruct (ds ++ String c t) as [|d u] eqn:E; [destruct ds; discriminate|].
      rewrite !(digit_neq b _ Hb) by reflexivity. now destruct (Ascii.eqb z "0"). }
  assert (Hlit : decimal_literal (ds ++ String c t) = NaN).
  { unfold decimal_literal.
    assert (Hsign : sign_prefix (ds ++ String c t) = (false, ds ++ String c t)).
    { destruct ds as [|a ds]; [congruence|]. cbn [String.append sign_prefix].
      cbn [all_digits] in Hds. apply andb_true_iff in Hds as [Ha _].
      now rewrite !(digit_neq a _ Ha) by reflexivity. }
    rewrite Hsign.
    assert (Hinf : String.eqb (ds ++ String c t) "Infinity" = false).
    { destruct ds as [|a ds]; [congruence|]. cbn [all_digits] in Hds.
      apply andb_true_iff in Hds as [Ha _]. cbn [String.append]. simpl.
      now rewrite (digit_neq a _ Ha) by reflexivity. }
    rewrite Hinf. unfold unsigned_decimal. rewrite Hspan.
    match goal with Hd : Ascii.eqb c "." = false |- _ => rewrite Hd end.
    destruct ds as [|a ds]; [congruence|]. cbn [truthy orb exponent_part].
    repeat match goal with
           | H : Ascii.eqb c "e" = false |- _ => rewrite H; clear H
           | H : Ascii.eqb c "E" = false |- _ => rewrite H; clear H
           end.
    reflexivity. }
  destruct (ds ++ String c t) as [|a u] eqn:E; [destruct ds; discriminate|].
  now rewrite Hnd, Hlit.
Qed.

Lemma cut_first_occurrence marker s pre rest :
  Token.cut marker s = Some (pre, rest) ->
  forall pre' rest', s = pre' ++ marker ++ rest' ->
    (String.length pre <= String.length pre')%nat.
Proof.
  revert pre. induction s as [|a s IH]; intros pre; cbn [Token.cut].
  - destruct (strip_prefix marker ""); [|discriminate].
    intros [= <- _] ? ? _. simpl. lia.
  - destruct (strip_prefix marker (String a s)) as [r|] eqn:E.
    + intros [= <- _] ? ? _. simpl. lia.
    + destruct (Token.cut marker s) as [[p r]|] eqn:C; [|discriminate].
      intros [= <- <-] pre' rest' Hs. destruct pre' as [|a' pre'].
      * cbn [String.append] in Hs.
        apply strip_prefix_Some in Hs. congruence.
      * cbn [String.append] in Hs. injection Hs as _ Hs.
        cbn [String.length]. specialize (IH p eq_refl pre' rest' Hs). lia.
Qed.

(** After digits and a code unit at which the marker does not start, the
    text up to the next occurrence of the marker begins with these
    digits and that code unit. *)
Lemma cut_digits_then marker ds c rest :
  starts_with_non_digit marker = true -> all_digits ds = true ->
  starts_with marker (String c rest) = false ->
  exists t,
    match Token.cut marker (ds ++ String c rest) with
    | Some (index, _) => index
    | None => ds ++ String c rest
    end = ds ++ String c t.
Proof.
  intros Hm Hds Hc. induction ds as [|a ds IH].
  - cbn [String.append Token.cut].
    rewrite (proj2 (strip_prefix_starts marker (String c rest)) Hc).
    destruct (Token.cut marker rest) as [[p r]|]; eauto.
  - cbn [all_digits] in Hds. apply andb_true_iff in Hds as [Ha Hds].
    destruct (IH Hds) as [t Ht]. exists t.
    cbn [String.append Token.cut].
    assert (E : strip_prefix marker (String a (ds ++ String c rest)) = None).
    { apply strip_prefix_starts. destruct marker as [|c0 m]; [discriminate|].
      cbn [starts_with_non_digit] in Hm. apply negb_true_iff in Hm.
      cbn [starts_with]. now rewrite Ascii.eqb_sym, (digit_neq a c0 Ha Hm). }
    rewrite E.
    destruct (Token.cut marker (ds ++ String c rest)) as [[p r]|];
      cbn [String.append]; now rewrite Ht.
Qed.

Lemma index_text_digits_then marker pre ds c rest :
  starts_with_non_digit marker = true ->
  Token.cut marker (pre ++ marker) = Some (pre, "") ->
  all_digits ds = true ->
  starts_with marker (String c rest) = false ->
  exists t,
    Token.index_text marker (pre ++ marker ++ ds ++ String c rest)
    = Some (ds ++ String c t).
Proof.
  intros Hm Hpre Hds Hc. unfold Token.index_text.
  rewrite (cut_extend _ _ (ds ++ String c rest) Hpre).
  destruct (cut_digits_then marker ds c rest Hm Hds Hc) as [t Ht]. exists t.
  destruct (Token.cut marker (ds ++ String c rest)) as [[p r]|]; now rewrite Ht.
Qed.

Lemma index_text_bare marker pre :
  marker <> "" ->
  Token.cut marker (pre ++ marker) = Some (pre, "") ->
  Token.index_text marker (pre ++ marker) = Some "".
Proof.
  intros Hm Hpre. unfold Token.index_text. rewrite Hpre.
  destruct marker; [congruence | reflexivity].
Qed.

Lemma starts_with_non_digit_nonempty marker :
  starts_with_non_digit marker = true -> marker <> "".
Proof. now destruct marker. Qed.

Section TokenRule.

Variable shortPlaceholderText : string.
Variable expressions : option (list string).

Local Abbreviation substitute_token :=
  (LinariaStringifier.substitute_token shortPlaceholderText expressions).

Lemma truthy_expression_get index :
  LinariaStringifier.truthy_expression expressions index =
  match expressions with
  | Some es =>
      match get es index with
      | Some e => if truthy e then Some e else None
      | None => None
      end
  | None => None
  end.
Proof. destruct expressions; [|reflexivity]. now destruct index. Qed.

(** The body of the loop, told with the index text. *)
Lemma token_by_index_text tok :
  shortPlaceholderText <> "" ->
  substitute_token tok =
  match Token.index_text shortPlaceholderText tok with
  | Some index =>
      match LinariaStringifier.truthy_expression expressions (Number (Some index)) with
      | Some e => e
      | None => tok
      end
  | None => tok
  end.
Proof.
  intros Hm. unfold LinariaStringifier.substitute_token.
  rewrite (second_split_index_text _ _ Hm).
  destruct (Token.index_text shortPlaceholderText tok); [reflexivity|].
  change (Number None) with NaN. now rewrite truthy_expression_NaN.
Qed.

Lemma token_replaced tok index es e :
  shortPlaceholderText <> "" ->
  Token.index_text shortPlaceholderText tok = Some index ->
  expressions = Some es -> get es (Number (Some index)) = Some e -> e <> "" ->
  substitute_token tok = e.
Proof.
  intros Hm Hi Hes He Hne.
  rewrite (token_by_index_text _ Hm), Hi, truthy_expression_get, Hes, He.
  now rewrite (proj2 (truthy_nonempty e) Hne).
Qed.

Lemma token_kept tok :
  shortPlaceholderText <> "" ->
  (forall index es e,
     Token.index_text shortPlaceholderText tok = Some index ->
     expressions = Some es -> get es (Number (Some index)) = Some e -> e = "") ->
  substitute_token tok = tok.
Proof.
  intros Hm H. rewrite (token_by_index_text _ Hm).
  destruct (Token.index_text shortPlaceholderText tok) as [index|]; [|reflexivity].
  rewrite truthy_expression_get.
  destruct expressions as [es|]; [|reflexivity].
  destruct (get es (Number (Some index))) as [e|] eqn:E; [|reflexivity].
  now rewrite (H index es e eq_refl eq_refl E).
Qed.

Lemma token_changed tok :
  shortPlaceholderText <> "" ->
  substitute_token tok <> tok ->
  exists index es e,
    Token.index_text shortPlaceholderText tok = Some index
    /\ expressions = Some es /\ get es (Number (Some index)) = Some e
    /\ e <> "" /\ substitute_token tok = e.
Proof.
  intros Hm. rewrite (token_by_index_text _ Hm).
  destruct (Token.index_text shortPlaceholderText tok) as [index|]; [|congruence].
  rewrite truthy_expression_get.
  destruct expressions as [es|]; [|congruence].
  destruct (get es (Number (Some index))) as [e|] eqn:E; [|congruence].
  destruct (truthy e) eqn:T; [|congruence].
  intros _. exists index, es, e. repeat split; try assumption.
  now apply truthy_nonempty.
Qed.

(** A token made of leading text, the marker at its first occurrence,
    and decimal digits. *)
Lemma token_digits pre ds :
  starts_with_non_digit shortPlaceholderText = true ->
  Token.cut shortPlaceholderText (pre ++ shortPlaceholderText) = Some (pre, "") ->
  ds <> "" -> all_digits ds = true ->
  substitute_token (pre ++ shortPlaceholderText ++ ds) =
  match expressions with
  | Some es =>
      match element es (decimal ds) with
      | Some e => if truthy e then e else pre ++ shortPlaceholderText ++ ds
      | None => pre ++ shortPlaceholderText ++ ds
      end
  | None => pre ++ shortPlaceholderText ++ ds
  end.
Proof.
  intros Hm Hpre Hne Hds.
  rewrite (token_by_index_text _ (starts_with_non_digit_nonempty _ Hm)).
  rewrite (index_text_digits _ _ _ Hm Hpre Hds), truthy_expression_get.
  destruct expressions as [es|]; [|reflexivity].
  rewrite (get_Number_digits es ds Hne Hds).
  destruct (element es (decimal ds)) as [e|]; [|reflexivity].
  now destruct (truthy e).
Qed.

Lemma token_digits_replaced pre ds es e :
  starts_with_non_digit shortPlaceholderText = true ->
  Token.cut shortPlaceholderText (pre ++ shortPlaceholderText) = Some (pre, "") ->
  ds <> "" -> all_digits ds = true ->
  expressions = Some es -> element es (decimal ds) = Some e -> e <> "" ->
  substitute_token (pre ++ shortPlaceholderText ++ ds) = e.
Proof.
  intros Hm Hpre Hne Hds Hes He Hnonempty.
  rewrite (token_digits pre ds Hm Hpre Hne Hds), Hes, He.
  now rewrite (proj2 (truthy_nonempty e) Hnonempty).
Qed.

Lemma token_digits_kept pre ds :
  starts_with_non_digit shortPlaceholderText = true ->
  Token.cut shortPlaceholderText (pre ++ shortPlaceholderText) = Some (pre, "") ->
  ds <> "" -> all_digits ds = true ->
  (expressions = None \/
   exists es, expressions = Some es /\
     (element es (decimal ds) = None \/ element es (decimal ds) = Some "")) ->
  substitute_token (pre ++ shortPlaceholderText ++ ds) =
  pre ++ shortPlaceholderText ++ ds.
Proof.
  intros Hm Hpre Hne Hds H. rewrite (token_digits pre ds Hm Hpre Hne Hds).
  destruct H as [-> | (es & -> & [-> | ->])]; reflexivity.
Qed.

(** Digits followed by a code unit that cannot go on a number, and at
    which the marker does not start again: the token is kept. *)
Lemma token_digits_then_kept pre ds c rest :
  starts_with_non_digit shortPlaceholderText = true ->
  Token.cut shortPlaceholderText (pre ++ shortPlaceholderText) = Some (pre, "") ->
  ds <> "" -> all_digits ds = true ->
  Shape.may_continue_number c = false ->
  starts_with shortPlaceholderText (String c rest) = false ->
  substitute_token (pre ++ shortPlaceholderText ++ ds ++ String c rest) =
  pre ++ shortPlaceholderText ++ ds ++ String c rest.
Proof.
  intros Hm Hpre Hne Hds Hc Hrest.
  rewrite (token_by_index_text _ (starts_with_non_digit_nonempty _ Hm)).
  destruct (index_text_digits_then _ pre ds c rest Hm Hpre Hds Hrest) as [t ->].
  now rewrite (Number_digits_junk ds c t Hne Hds Hc), truthy_expression_NaN.
Qed.

End TokenRule.

(** C2, amended. The substitution routine returns a string without the
    short marker unchanged. Otherwise it splits the string on single
    spaces, treats each token on its own and joins the results with
    single spaces. The index text of a token is what stands between the
    first occurrence of the marker in it and the next occurrence, or the
    end of the token: it is the second piece of the token split at the
    marker, and a token without the marker has none. A token is replaced
    by an entry of the table exactly when its index text, converted to a
    number, is the position of a non-empty entry, and it is then
    replaced by that entry; every other token is kept verbatim. For a
    token made of leading characters, the marker as its first occurrence
    and decimal digits, the index text is the digits and the position is
    the number they denote: such a token is replaced by a non-empty
    entry there, and kept when there is no table, no entry or an empty
    one. With the table holding the one expression "${x}", the value
    "a <marker>0 b" prints as "a ${x} b". *)
Theorem substitutePlaceholders_by_token
    (shortPlaceholderText : string) (expressions : option (list string)) :
  (forall s, includes s shortPlaceholderText = false ->
     LinariaStringifier.substitutePlaceholders shortPlaceholderText s expressions = s)
  /\ (forall s, includes s shortPlaceholderText = true ->
     LinariaStringifier.substitutePlaceholders shortPlaceholderText s expressions =
     join (map (LinariaStringifier.substitute_token shortPlaceholderText expressions)
               (split s " ")) " ")
  /\ (forall tok, shortPlaceholderText <> "" ->
     second (split tok shortPlaceholderText)
     = Token.index_text shortPlaceholderText tok)
  /\ (forall tok,
     Token.index_text shortPlaceholderText tok = None
     <-> includes tok shortPlaceholderText = false)
  /\ (forall tok pre rest,
     Token.cut shortPlaceholderText tok = Some (pre, rest) ->
     tok = pre ++ shortPlaceholderText ++ rest
     /\ forall pre' rest', tok = pre' ++ shortPlaceholderText ++ rest' ->
          (String.length pre <= String.length pre')%nat)
  /\ (forall tok index es e,
     shortPlaceholderText <> "" ->
     Token.index_text shortPlaceholderText tok = Some index ->
     expressions = Some es -> get es (Number (Some index)) = Some e -> e <> "" ->
     LinariaStringifier.substitute_token shortPlaceholderText expressions tok = e)
  /\ (forall tok,
     shortPlaceholderText <> "" ->
     (forall index es e,
        Token.index_text shortPlaceholderText tok = Some index ->
        expressions = Some es -> get es (Number (Some index)) = Some e -> e = "") ->
     LinariaStringifier.substitute_token shortPlaceholderText expressions tok = tok)
  /\ (forall pre ds,
     starts_with_non_digit shortPlaceholderText = true ->
     Token.cut shortPlaceholderText (pre ++ shortPlaceholderText) = Some (pre, "") ->
     ds <> "" -> all_digits ds = true ->
     Token.index_text shortPlaceholderText (pre ++ shortPlaceholderText ++ ds) = Some ds
     /\ forall es, get es (Number (Some ds)) = element es (decimal ds))
  /\ (forall pre ds es e,
     starts_with_non_digit shortPlaceholderText = true ->
     Token.cut shortPlaceholderText (pre ++ shortPlaceholderText) = Some (pre, "") ->
     ds <> "" -> all_digits ds = true ->
     expressions = Some es -> element es (decimal ds) = Some e -> e <> "" ->
     LinariaStringifier.substitute_token shortPlaceholderText expressions
       (pre ++ shortPlaceholderText ++ ds) = e)
  /\ (forall pre ds,
     starts_with_non_digit shortPlaceholderText = true ->
     Token.cut shortPlaceholderText (pre ++ shortPlaceholderText) = Some (pre, "") ->
     ds <> "" -> all_digits ds = true ->
     (expressions = None \/
      exists es, expressions = Some es /\
        (element es (decimal ds) = None \/ element es (decimal ds) = Some "")) ->
     LinariaStringifier.substitute_token shortPlaceholderText expressions
       (pre ++ shortPlaceholderText ++ ds) = pre ++ shortPlaceholderText ++ ds)
  /\ (starts_with_non_digit shortPlaceholderText = true ->
      occurs " " shortPlaceholderText = false ->
      (2 <= String.length shortPlaceholderText)%nat ->
      LinariaStringifier.substitutePlaceholders shortPlaceholderText
        ("a " ++ shortPlaceholderText ++ "0 b") (Some ["${x}"]) = "a ${x} b").
Proof.
  repeat apply conj.
  - apply substitutePlaceholders_fast_path.
  - apply substitutePlaceholders_slow_path.
  - intros tok Hm. now apply second_split_index_text.
  - intros tok. unfold Token.index_text. rewrite <- cut_None.
    destruct (Token.cut shortPlaceholderText tok) as [[pre rest]|]; [|tauto].
    destruct (Token.cut shortPlaceholderText rest) as [[index r]|];
      split; discriminate.
  - intros tok pre rest H. split; [now apply cut_app|].
    now apply (cut_first_occurrence _ _ _ _ H).
  - apply token_replaced.
  - apply token_kept.
  - intros pre ds Hm Hpre Hne Hds. split.
    + now apply index_text_digits.
    + intros es. now apply get_Number_digits.
  - apply token_digits_replaced.
  - apply token_digits_kept.
  - apply substitutePlaceholders_example.
Qed.

(** C2 on a run: a selector-like token with leading text is replaced; of
    two placeholders written as one token the first gives the index; a
    token with a unit after the index is kept; and the specification's
    example prints as it says. *)
Lemma substitutePlaceholders_by_token_witness :
  LinariaStringifier.substitute_token Sample.shortPlaceholderText
    (Some ["${x}"]) "span.pcss_lin0" = "${x}"
  /\ LinariaStringifier.substitute_token Sample.shortPlaceholderText
       (Some ["${x}"; "${y}"]) "pcss_lin1pcss_lin0" = "${y}"
  /\ LinariaStringifier.substitute_token Sample.shortPlaceholderText
       (Some ["${x}"; "${y}"]) "pcss_lin1px" = "pcss_lin1px"
  /\ LinariaStringifier.substitutePlaceholders Sample.shortPlaceholderText
       "a pcss_lin0 b" (Some ["${x}"]) = "a ${x} b".
Proof.
  destruct (substitutePlaceholders_by_token Sample.shortPlaceholderText (Some ["${x}"]))
    as (_ & _ & _ & _ & _ & _ & _ & _ & Htok & _ & Hex).
  destruct (substitutePlaceholders_by_token Sample.shortPlaceholderText
              (Some ["${x}"; "${y}"]))
    as (_ & _ & _ & _ & _ & Hrep & Hkept & _).
  split; [|split; [|split]].
  - apply (Htok "span." "0" ["${x}"] "${x}"); (reflexivity || discriminate).
  - apply (Hrep "pcss_lin1pcss_lin0" "1" ["${x}"; "${y}"] "${y}");
      (reflexivity || discriminate).
  - apply Hkept; [discriminate|].
    intros index es e Hi Hes He. vm_compute in Hi.
    injection Hi as <-. injection Hes as <-. vm_compute in He. discriminate.
  - apply Hex; [reflexivity | reflexivity | simpl; lia].
Defined.

(** C4, amended. A token is substituted only when its index text, that
    is, all that stands between the first occurrence of the marker and
    the next occurrence or the end of the token, converts to the
    position of a non-empty entry, and it then becomes that entry. So
    the index has to reach the end of the token: a token in which the
    marker and decimal digits are followed by a code unit that cannot go
    on a number, and at which the marker does not start again, is kept
    verbatim. But the marker need not start the token: what precedes its
    first occurrence is ignored, and a token made of leading characters,
    the marker as its first occurrence and a decimal index of a
    non-empty entry is replaced, as a whole, by that entry. A token is
    never turned into anything but a non-empty entry of the table, and
    never changed unless it contains the marker. *)
Theorem substitute_token_ignores_leading
    (shortPlaceholderText : string) (expressions : option (list string)) :
  (forall tok,
     shortPlaceholderText <> "" ->
     LinariaStringifier.substitute_token shortPlaceholderText expressions tok <> tok ->
     exists index es e,
       Token.index_text shortPlaceholderText tok = Some index
       /\ expressions = Some es /\ get es (Number (Some index)) = Some e
       /\ e <> ""
       /\ LinariaStringifier.substitute_token shortPlaceholderText expressions tok = e)
  /\ (forall pre ds c rest,
     starts_with_non_digit shortPlaceholderText = true ->
     Token.cut shortPlaceholderText (pre ++ shortPlaceholderText) = Some (pre, "") ->
     ds <> "" -> all_digits ds = true ->
     Shape.may_continue_number c = false ->
     starts_with shortPlaceholderText (String c rest) = false ->
     LinariaStringifier.substitute_token shortPlaceholderText expressions
       (pre ++ shortPlaceholderText ++ ds ++ String c rest)
     = pre ++ shortPlaceholderText ++ ds ++ String c rest)
  /\ (forall pre ds es e,
     starts_with_non_digit shortPlaceholderText = true ->
     Token.cut shortPlaceholderText (pre ++ shortPlaceholderText) = Some (pre, "") ->
     ds <> "" -> all_digits ds = true ->
     expressions = Some es -> element es (decimal ds) = Some e -> e <> "" ->
     LinariaStringifier.substitute_token shortPlaceholderText expressions
       (pre ++ shortPlaceholderText ++ ds) = e)
  /\ (forall tok,
     LinariaStringifier.substitute_token shortPlaceholderText expressions tok = tok
     \/ exists es e, expressions = Some es /\ In e es /\ e <> "" /\
          LinariaStringifier.substitute_token shortPlaceholderText expressions tok = e)
  /\ (forall tok,
     LinariaStringifier.substitute_token shortPlaceholderText expressions tok <> tok ->
     includes tok shortPlaceholderText = true).
Proof.
  repeat apply conj.
  - apply token_changed.
  - apply token_digits_then_kept.
  - apply token_digits_replaced.
  - intros tok. unfold LinariaStringifier.substitute_token.
    destruct (LinariaStringifier.truthy_expression expressions _) as [e|] eqn:E;
      [right | left; reflexivity].
    apply truthy_expression_Some in E as (es & Hes & _ & Hin & Hne).
    exists es, e. auto.
  - intros tok H.
    destruct (includes tok shortPlaceholderText) eqn:E; [reflexivity|].
    exfalso. apply H. now apply token_without_marker.
Qed.

(** C4 on a run: the token [xpcss_lin0] is replaced by the expression,
    its index text being [0]; the token [pcss_lin1px] is kept. *)
Lemma substitute_token_ignores_leading_witness :
  LinariaStringifier.substitute_token Sample.shortPlaceholderText
    (Some ["${x}"]) "xpcss_lin0" = "${x}"
  /\ Token.index_text Sample.shortPlaceholderText "xpcss_lin0" = Some "0"
  /\ LinariaStringifier.substitute_token Sample.shortPlaceholderText
       (Some ["${x}"; "${y}"]) "pcss_lin1px" = "pcss_lin1px".
Proof.
  destruct (substitute_token_ignores_leading Sample.shortPlaceholderText (Some ["${x}"]))
    as (Honly & _ & Htok & _).
  destruct (substitute_token_ignores_leading Sample.shortPlaceholderText
              (Some ["${x}"; "${y}"]))
    as (_ & Hjunk & _).
  assert (H : LinariaStringifier.substitute_token Sample.shortPlaceholderText
                (Some ["${x}"]) "xpcss_lin0" = "${x}")
    by (apply (Htok "x" "0" ["${x}"] "${x}"); (reflexivity || discriminate)).
  split; [exact H|]. split.
  - destruct (Honly "xpcss_lin0") as (index & es & e & Hi & _);
      [discriminate | rewrite H; discriminate |].
    rewrite Hi. vm_compute in Hi. congruence.
  - apply (Hjunk "" "1" "p"%char "x"); (reflexivity || discriminate).
Defined.

Section TokenPositions.

Variable shortPlaceholderText : string.

Local Abbreviation substitute_token :=
  (LinariaStringifier.substitute_token shortPlaceholderText).

(** X6. A token in which the first occurrence of the marker, the marker
    being non-empty, stands at the very end has the empty index text,
    and the empty string converts to the number 0: the token is replaced
    by the first entry of the table when that entry is non-empty, and
    kept otherwise. *)
Theorem token_bare_marker (expressions : option (list string)) (pre : string) :
  shortPlaceholderText <> "" ->
  Token.cut shortPlaceholderText (pre ++ shortPlaceholderText) = Some (pre, "") ->
  Token.index_text shortPlaceholderText (pre ++ shortPlaceholderText) = Some ""
  /\ substitute_token expressions (pre ++ shortPlaceholderText) =
     match expressions with
     | Some (e :: _) => if truthy e then e else pre ++ shortPlaceholderText
     | _ => pre ++ shortPlaceholderText
     end.
Proof.
  intros Hm Hpre. split; [now apply index_text_bare|].
  rewrite (token_by_index_text _ _ _ Hm), (index_text_bare _ _ Hm Hpre).
  destruct expressions as [[|e es]|]; try reflexivity.
  unfold LinariaStringifier.truthy_expression.
  change (Number (Some "")) with (Fin false 0 0).
  change (get (e :: es) (Fin false 0 0)) with (Some e). cbn [isNaN negb].
  destruct (truthy e); reflexivity.
Qed.

(** X7. For a token made of leading characters, the marker as its first
    occurrence in the token, and decimal digits up to the end, the
    digits are read as a position in the table: a position inside the
    table selects the entry there, which replaces the token when it is
    non-empty, and a position at or past the end of the table leaves the
    token as it is. *)
Theorem token_index_bounds (es : list string) (pre ds : string) :
  starts_with_non_digit shortPlaceholderText = true ->
  Token.cut shortPlaceholderText (pre ++ shortPlaceholderText) = Some (pre, "") ->
  ds <> "" -> all_digits ds = true ->
  (forall i e,
     decimal ds = Z.of_nat i -> Z.of_nat i < 2 ^ 32 - 1 ->
     nth_error es i = Some e -> e <> "" ->
     substitute_token (Some es) (pre ++ shortPlaceholderText ++ ds) = e)
  /\ (Z.of_nat (List.length es) <= decimal ds ->
      substitute_token (Some es) (pre ++ shortPlaceholderText ++ ds) =
      pre ++ shortPlaceholderText ++ ds).
Proof.
  intros Hm Hpre Hne Hds. split.
  - intros i e Hi Hlt Hnth Hnonempty.
    apply (token_digits_replaced _ _ _ _ es e); try assumption; [reflexivity|].
    now rewrite Hi, element_nth_error.
  - intros Hbeyond. apply token_digits_kept; try assumption.
    right. exists es. split; [reflexivity|]. left. now apply element_beyond.
Qed.

End TokenPositions.

(** X6 on a run: the bare marker, after leading text, is replaced by the
    first expression. *)
Lemma token_bare_marker_witness :
  Token.index_text Sample.shortPlaceholderText "top.pcss_lin" = Some ""
  /\ LinariaStringifier.substitute_token Sample.shortPlaceholderText
       (Some ["${x}"; "${y}"]) "top.pcss_lin" = "${x}".
Proof.
  exact (token_bare_marker Sample.shortPlaceholderText (Some ["${x}"; "${y}"]) "top."
           ltac:(discriminate) eq_refl).
Defined.

(** X7 on a run: with two expressions, index 1 after leading text selects
    the second and index 2 is past the end. *)
Lemma token_index_bounds_witness :
  LinariaStringifier.substitute_token Sample.shortPlaceholderText
    (Some ["${x}"; "${y}"]) "span.pcss_lin1" = "${y}"
  /\ LinariaStringifier.substitute_token Sample.shortPlaceholderText
    (Some ["${x}"; "${y}"]) "span.pcss_lin2" = "span.pcss_lin2".
Proof.
  split.
  - destruct (token_index_bounds Sample.shortPlaceholderText ["${x}"; "${y}"] "span." "1"
                eq_refl eq_refl ltac:(discriminate) eq_refl) as [Hin _].
    apply (Hin 1%nat "${y}"); [reflexivity | reflexivity | reflexivity | discriminate].
  - destruct (token_index_bounds Sample.shortPlaceholderText ["${x}"; "${y}"] "span." "2"
                eq_refl eq_refl ltac:(discriminate) eq_refl) as [_ Hout].
    apply Hout. vm_compute. discriminate.
Defined.
